(** * PayStubAutomator: a shallow embedding of [main.py]

    The script splits a multi-page PDF into one-page pay stubs, finds the
    recipient of each page with a regular expression, mails the stub and
    files it under [Sent] or [Failed to Send].

    How the program is modelled:
    - Python strings are [string]; a character is read as a code point
      below 256.
    - The file system, standard output, the SMTP traffic and the PyMuPDF
      document handles form an explicit [world] that every effectful
      function transforms.  A raised exception is a result, and the effects
      performed before it are kept.
    - The file system maps a path, spelled as the script spells it, to a
      regular file or a directory; [os.path] and [os.rename] follow POSIX.
    - What the script cannot decide is part of the world it starts in: how
      the coming SMTP sessions go ([net]), and whether MuPDF can copy a page
      ([copyable]).
    - The one [while] loop runs on fuel and comes back with [Diverge] when
      the fuel is used up; [Total] shows that this never happens.  Library
      calls always come back: a server that never answers is not modelled.
    - Limits of the library models: a regular file is either a document
      MuPDF opens ([Pdf]) or bytes it rejects ([Blob]); text and image files,
      which MuPDF also opens as documents, are left out.  [save] refuses
      every directory at its path, also an empty one.  Credentials are
      ASCII, so that [login] fails only as the server decides.
    - The pattern of line 118 is [email_pattern] with its domain part as a
      parameter: [placeholder_domain] is that part as the repository ships
      it, [configured] what a deployment is asked to put there.
    - [resource_path] computes on what the interpreter knows about the
      installation ([runtime]); [os.path.dirname], [normpath] and [abspath]
      follow [posixpath].
    - [getSecret] and [main] run on a [console]: the machine of the
      pipeline, the lines still to be typed, what the dialogue has shown,
      and what the Secret Manager would answer ([cloud]).  A secret that is
      a dictionary holds strings. *)

From stdpp Require Import base decidable option list strings pretty gmap fin_maps.
From Stdlib Require Import Ascii String ZArith Lia.

Local Open Scope Z_scope.
Local Open Scope stdpp_scope.

(** * Python strings *)

Module Str.

Fixpoint take (n : nat) (s : string) : string :=
  match n, s with
  | S n', String c s' => String c (take n' s')
  | _, _ => ""
  end.

Fixpoint drop (n : nat) (s : string) : string :=
  match n, s with
  | S n', String _ s' => drop n' s'
  | _, _ => s
  end.

(** [s[i:]] and [s[:i]] for an index [i >= 0]. *)
Definition slice_from (i : Z) (s : string) : string := drop (Z.to_nat i) s.
Definition slice_to (i : Z) (s : string) : string := take (Z.to_nat i) s.

(** [s.startswith(t)]: the rest of [s] after [t], when [t] is a prefix. *)
Fixpoint strip_prefix (t s : string) : option string :=
  match t, s with
  | "", _ => Some s
  | String a t', String b s' => if decide (a = b) then strip_prefix t' s' else None
  | String _ _, "" => None
  end.

(** [s.rfind(c)] for a one-character [c]: the last index, or [-1]. *)
Fixpoint rfind (c : ascii) (s : string) : Z :=
  match s with
  | "" => -1
  | String a s' =>
      let r := rfind c s' in
      if 0 <=? r then r + 1 else if decide (a = c) then 0 else -1
  end.

(** The text before and after the first occurrence of [sep], if there is
    one. *)
Fixpoint partition (sep s : string) : option (string * string) :=
  match strip_prefix sep s with
  | Some rest => Some ("", rest)
  | None =>
      match s with
      | "" => None
      | String a s' =>
          match partition sep s' with
          | Some (x, y) => Some (String a x, y)
          | None => None
          end
      end
  end.

(** [s.split(sep, 1)]: one piece when [sep] does not occur, otherwise the
    text before and after its first occurrence. *)
Definition split1 (sep s : string) : list string :=
  match partition sep s with
  | Some (x, y) => [x; y]
  | None => [s]
  end.

(** [s.replace(a, b)] for one-character [a] and [b]. *)
Fixpoint replace (a b : ascii) (s : string) : string :=
  match s with
  | "" => ""
  | String c s' => String (if decide (c = a) then b else c) (replace a b s')
  end.

Fixpoint all (p : ascii → bool) (s : string) : bool :=
  match s with
  | "" => true
  | String a s' => p a && all p s'
  end.

Fixpoint mem (c : ascii) (s : string) : bool :=
  match s with
  | "" => false
  | String a s' => bool_decide (a = c) || mem c s'
  end.

End Str.

(** * Regular expressions: the fragment of [re] the script uses

    A backtracking matcher in continuation style, as Python's engine works:
    a greedy repetition first tries to take one more character and gives one
    back only when the rest of the pattern fails. *)

Module Re.

Inductive regex :=
| Eps                          (* the empty pattern *)
| Lit (c : ascii)              (* a literal or escaped character *)
| Class (p : ascii → bool)     (* [...] *)
| Plus (p : ascii → bool)      (* [...]+ , greedy *)
| Cat (r1 r2 : regex)
| Group (r : regex).           (* ( ... ), capturing group 1 *)

(** [\w] on code points below 256: letters, digits and the underscore. *)
Definition is_word (c : ascii) : bool :=
  let n := N_of_ascii c in
  ((48 <=? n) && (n <=? 57) || (65 <=? n) && (n <=? 90) || (n =? 95)
   || (97 <=? n) && (n <=? 122)
   || (n =? 170) || (n =? 178) || (n =? 179) || (n =? 181) || (n =? 185)
   || (n =? 186) || (188 <=? n) && (n <=? 190)
   || (192 <=? n) && (n <=? 214) || (216 <=? n) && (n <=? 246)
   || (248 <=? n))%N.

(** Greedy [p+] against [s], then [k] on the rest. *)
Fixpoint plus {A} (p : ascii → bool) (s : string) (k : string → option A) : option A :=
  match s with
  | String a s' =>
      if p a then
        match plus p s' k with
        | Some r => Some r
        | None => k s'
        end
      else None
  | "" => None
  end.

(** [exec r s g k]: match [r] at the head of [s] with group 1 currently [g],
    and continue with [k] on what is left. *)
Fixpoint exec {A} (r : regex) (s : string) (g : option string)
    (k : string → option string → option A) : option A :=
  match r with
  | Eps => k s g
  | Lit c =>
      match s with
      | String a s' => if decide (a = c) then k s' g else None
      | "" => None
      end
  | Class p =>
      match s with
      | String a s' => if p a then k s' g else None
      | "" => None
      end
  | Plus p => plus p s (λ s', k s' g)
  | Cat r1 r2 => exec r1 s g (λ s1 g1, exec r2 s1 g1 k)
  | Group r1 =>
      exec r1 s g (λ s1 _, k s1 (Some (Str.take (String.length s - String.length s1) s)))
  end.

(** A match object: where the match starts, [group(0)] and [group(1)]. *)
Record match_obj := Match { m_start : nat; group0 : string; group1 : option string }.

Definition match_at (r : regex) (s : string) : option (string * option string) :=
  exec r s None (λ s' g, Some (Str.take (String.length s - String.length s') s, g)).

(** [re.search]: the match at the first position that has one. *)
Fixpoint search_from (r : regex) (i : nat) (s : string) : option match_obj :=
  match match_at r s with
  | Some (g0, g1) => Some (Match i g0 g1)
  | None =>
      match s with
      | "" => None
      | String _ s' => search_from r (S i) s'
      end
  end.

Definition search (r : regex) (s : string) : option match_obj := search_from r 0 s.

(** The pattern text [c1 c2 ...] without metacharacters. *)
Fixpoint literal (t : string) : regex :=
  match t with
  | "" => Eps
  | String c t' => Cat (Lit c) (literal t')
  end.

End Re.

(** * The recipient pattern (main.py, line 118)

    [r'([\w\.-]+)@[domain]\.com'], where the comment asks to replace
    [[domain]] by the deployment's domain.  [dom] is that part of the
    pattern. *)

Definition is_local (c : ascii) : bool :=
  Re.is_word c || bool_decide (c = "."%char) || bool_decide (c = "-"%char).

Definition email_pattern (dom : Re.regex) : Re.regex :=
  Re.Cat (Re.Group (Re.Plus is_local))
    (Re.Cat (Re.Lit "@") (Re.Cat dom (Re.literal ".com"))).

(** The pattern as the repository ships it: [[domain]] is a character class. *)
Definition placeholder_domain : Re.regex := Re.Class (λ c, Str.mem c "domain").

(** Not the pattern of the repository, but the one a deployment gets by the
    replacement the comment of line 118 asks for, with the characters of
    [domain] taken literally (as after [re.escape]; a [.] in the domain is
    not a wildcard here). *)
Definition configured (domain : string) : Re.regex := Re.literal domain.

(** Lines 118-121: [email_match], then [group(0)] and [group(1)]. *)
Definition extract (dom : Re.regex) (text : string) : option (string * string) :=
  match Re.search (email_pattern dom) text with
  | Some m => Some (Re.group0 m, default "None" (Re.group1 m))
  | None => None
  end.


(** * [posixpath] *)

Module Path.

(** [os.path.join(a, b)] *)
Definition join (a b : string) : string :=
  if bool_decide (is_Some (Str.strip_prefix "/" b)) then b
  else if bool_decide (a = "") || bool_decide (Str.rfind "/" a = Z.of_nat (String.length a) - 1)
       then a +:+ b
       else a +:+ "/" +:+ b.

(** [os.path.basename(p)]: [i = p.rfind('/') + 1; return p[i:]] *)
Definition basename (p : string) : string :=
  let i := Str.rfind "/" p + 1 in
  Str.slice_from i p.

(** [os.path.splitext(p)]: the extension starts at the last dot of the last
    component, unless only dots precede it there. *)
Definition splitext (p : string) : string * string :=
  let sepIndex := Str.rfind "/" p in
  let dotIndex := Str.rfind "." p in
  if sepIndex <? dotIndex then
    let filenameIndex := sepIndex + 1 in
    if Str.all (λ c, bool_decide (c = "."%char))
         (Str.slice_from filenameIndex (Str.slice_to dotIndex p))
    then (p, "")
    else (Str.slice_to dotIndex p, Str.slice_from dotIndex p)
  else (p, "").

(** The directory a path lives in; [""] stands for the working directory. *)
Definition parent (p : string) : string :=
  Str.slice_to (Str.rfind "/" p) p.

End Path.

(** * The world the script acts on *)

(** A page of a PDF: its text layer, and whether MuPDF can copy it. *)
Record page := Page { page_text : string; copyable : bool }.

(** What a regular file holds: a document MuPDF opens, or bytes it does not
    accept as a document. *)
Inductive data :=
| Pdf (pages : list page)
| Blob (bytes : string).

Inductive node :=
| File (d : data)
| Dir.

Inductive exn :=
| FileNotFoundError
| NotADirectoryError
| IsADirectoryError
| FileExistsError
| OSError
| ValueError
| FileDataError
| MuPDFError
| SMTPConnectError
| SMTPAuthenticationError
| SMTPDataError.

Record attachment := Attachment {
  maintype : string;
  subtype : string;
  filename : string;
  payload : data
}.

(** An [EmailMessage]: the headers in the order they were set, the text
    content and the attached parts. *)
Record message := Message {
  headers : list (string * string);
  content : string;
  attachments : list attachment
}.

Inductive tls_mode := ImplicitTLS | StartTLS | NoTLS.

(** What reaches the mail server. *)
Inductive smtp_event :=
| Connected (host : string) (port : Z) (mode : tls_mode)
| ConnectFailed (host : string) (port : Z) (mode : tls_mode)
| LoggedIn (user password : string)
| LoginRejected (user password : string)
| Accepted (m : message)
| Rejected (m : message)
| Quit.

(** How one SMTP session will go; the network decides, not the script. *)
Inductive net_outcome := NetOk | NetConnectFails | NetLoginFails | NetSendFails.

Inductive handle := Source (path : string) | Stub.
Inductive doc_event := Opened (h : handle) | Closed (h : handle).

(** The three [print] calls of [process_pay_stubs]. *)
Inductive line :=
| SentTo (email : string)
| FailedTo (email : string) (e : exn)
| NoEmailOnPage (n : nat).

Record world := World {
  fs : gmap string node;        (* path, as the script spells it, to node *)
  stdout : list line;
  wire : list smtp_event;
  net : list net_outcome;       (* outcomes of the sessions still to come *)
  handles : list doc_event
}.

Definition set_fs (f : gmap string node → gmap string node) (w : world) : world :=
  World (f (fs w)) (stdout w) (wire w) (net w) (handles w).
Definition add_line (l : line) (w : world) : world :=
  World (fs w) (stdout w ++ [l]) (wire w) (net w) (handles w).
Definition add_wire (es : list smtp_event) (w : world) : world :=
  World (fs w) (stdout w) (wire w ++ es) (net w) (handles w).
Definition pop_net (w : world) : world :=
  World (fs w) (stdout w) (wire w) (tail (net w)) (handles w).
Definition add_handle (e : doc_event) (w : world) : world :=
  World (fs w) (stdout w) (wire w) (net w) (handles w ++ [e]).

(** * Effects: state, exceptions, and a loop that may not end *)

Inductive result (A : Type) :=
| Ok (a : A)
| Raise (e : exn)
| Diverge.
Arguments Ok {A} a.
Arguments Raise {A} e.
Arguments Diverge {A}.

Definition M (A : Type) : Type := world → result A * world.

Definition ret {A} (a : A) : M A := λ w, (Ok a, w).
Definition raise {A} (e : exn) : M A := λ w, (Raise e, w).
Definition bind {A B} (m : M A) (f : A → M B) : M B := λ w,
  match m w with
  | (Ok a, w') => f a w'
  | (Raise e, w') => (Raise e, w')
  | (Diverge, w') => (Diverge, w')
  end.

(** [try: m  except Exception as e: h e] *)
Definition try_except {A} (m : M A) (h : exn → M A) : M A := λ w,
  match m w with
  | (Raise e, w') => h e w'
  | r => r
  end.

Declare Scope py_scope.
Delimit Scope py_scope with py.
Notation "'do' x <- m ; k" := (bind m (λ x, k))
  (at level 10, x name, m at level 100, k at level 200) : py_scope.
Notation "m >> k" := (bind m (λ _, k))
  (at level 100, k at level 200, right associativity) : py_scope.
Local Open Scope py_scope.

(** [with enter as x: body], where [leave] runs on every way out of [body]. *)
Definition with_ {R A} (enter : M R) (leave : R → M unit) (body : R → M A) : M A :=
  do r <- enter;
  λ w,
    match body r w with
    | (Ok a, w') => (leave r >> ret a) w'
    | (Raise e, w') => (leave r >> raise e) w'
    | (Diverge, w') => (Diverge, w')
    end.

(** * Library calls *)

Module Os.

Definition path_exists (p : string) : M bool := λ w,
  (Ok (bool_decide (is_Some (fs w !! p))), w).

(** The directory that is to hold [p] must be there. *)
Definition check_parent (p : string) : M unit := λ w,
  if bool_decide (Path.parent p = "") then (Ok tt, w)
  else
    match fs w !! Path.parent p with
    | Some Dir => (Ok tt, w)
    | Some (File _) => (Raise NotADirectoryError, w)
    | None => (Raise FileNotFoundError, w)
    end.

(** [os.makedirs(name)] for a name of one component, which is what both call
    sites pass: no intermediate directory is to be made, and an existing
    [name] is an error. *)
Definition makedirs (name : string) : M unit :=
  check_parent name >>
  λ w,
    match fs w !! name with
    | Some _ => (Raise FileExistsError, w)
    | None => (Ok tt, set_fs (insert name Dir) w)
    end.

Definition inside (dir p : string) : bool :=
  bool_decide (is_Some (Str.strip_prefix (dir +:+ "/") p)).

Definition has_children (dir : string) (m : gmap string node) : bool :=
  bool_decide (filter (λ kv, inside dir kv.1 = true) m ≠ ∅).

Definition rekey (src dst k : string) : string :=
  if bool_decide (k = src) || inside src k
  then dst +:+ Str.drop (String.length src) k
  else k.

(** [os.rename(src, dst)] on POSIX: an existing regular file at [dst] is
    replaced silently; a directory moves with everything below it. *)
Definition rename (src dst : string) : M unit := λ w,
  match fs w !! src with
  | None => (Raise FileNotFoundError, w)
  | Some n =>
      match check_parent dst w with
      | (Ok _, _) =>
          if bool_decide (src = dst) then (Ok tt, w)
          else
            match n, fs w !! dst with
            | File _, Some Dir => (Raise IsADirectoryError, w)
            | File _, _ => (Ok tt, set_fs (λ m, <[dst := n]> (delete src m)) w)
            | Dir, Some (File _) => (Raise NotADirectoryError, w)
            | Dir, _ =>
                if inside src dst || has_children dst (fs w)
                then (Raise OSError, w)
                else (Ok tt, set_fs (λ m, kmap (rekey src dst) (delete dst m)) w)
            end
      | (r, _) => (r, w)
      end
  end.

(** [with open(path, 'rb') as f: f.read()] *)
Definition read_binary (path : string) : M data := λ w,
  match fs w !! path with
  | Some (File d) => (Ok d, w)
  | Some Dir => (Raise IsADirectoryError, w)
  | None => (Raise FileNotFoundError, w)
  end.

End Os.

Definition print (l : line) : M unit := λ w, (Ok tt, add_line l w).

Module Fitz.

(** [fitz.open(path)]: a path that does not exist gives [FileNotFoundError],
    one that is no file or holds no document [FileDataError]. *)
Definition open (path : string) : M (list page) := λ w,
  match fs w !! path with
  | Some (File (Pdf pages)) => (Ok pages, add_handle (Opened (Source path)) w)
  | Some (File (Blob _)) => (Raise FileDataError, w)
  | Some Dir => (Raise FileDataError, w)
  | None => (Raise FileNotFoundError, w)
  end.

(** [fitz.open()]: a new, empty document. *)
Definition open_new : M (list page) := λ w, (Ok [], add_handle (Opened Stub) w).

Definition close (h : handle) : M unit := λ w, (Ok tt, add_handle (Closed h) w).

(** [stub.insert_pdf(doc, from_page=i, to_page=i)] *)
Definition insert_pdf (stub doc : list page) (i : nat) : M (list page) :=
  match doc !! i with
  | Some pg => if copyable pg then ret (stub ++ [pg]) else raise MuPDFError
  | None => raise ValueError
  end.

(** [stub.save(path)]: writes the file, over an existing one.  A directory
    at [path] makes it raise (MuPDF itself would first remove an empty
    one). *)
Definition save (stub : list page) (path : string) : M unit := λ w,
  match Os.check_parent path w, fs w !! path with
  | (Ok _, _), Some Dir => (Raise MuPDFError, w)
  | (Ok _, _), _ => (Ok tt, set_fs (insert path (File (Pdf stub))) w)
  | _, _ => (Raise MuPDFError, w)
  end.

End Fitz.

Module Smtp.

Definition outcome (w : world) : net_outcome := default NetOk (head (net w)).

(** [smtplib.SMTP_SSL(host, port)] *)
Definition connect_ssl (host : string) (port : Z) : M unit := λ w,
  match outcome w with
  | NetConnectFails =>
      (Raise SMTPConnectError, pop_net (add_wire [ConnectFailed host port ImplicitTLS] w))
  | _ => (Ok tt, add_wire [Connected host port ImplicitTLS] w)
  end.

(** Leaving the [with] block: QUIT, and the session is over. *)
Definition quit (_ : unit) : M unit := λ w, (Ok tt, pop_net (add_wire [Quit] w)).

Definition login (user password : string) : M unit := λ w,
  match outcome w with
  | NetLoginFails => (Raise SMTPAuthenticationError, add_wire [LoginRejected user password] w)
  | _ => (Ok tt, add_wire [LoggedIn user password] w)
  end.

Definition send_message (msg : message) : M unit := λ w,
  match outcome w with
  | NetSendFails => (Raise SMTPDataError, add_wire [Rejected msg] w)
  | _ => (Ok tt, add_wire [Accepted msg] w)
  end.

End Smtp.

(** * main.py *)

(** [a, b = xs] *)
Definition unpack2 (xs : list string) : M (string * string) :=
  match xs with
  | [a; b] => ret (a, b)
  | _ => raise ValueError
  end.

Definition unique_name (date_part name_part : string) (counter : nat) (ext : string) : string :=
  date_part +:+ " - " +:+ name_part +:+ " - " +:+ pretty counter +:+ ext.

(** Lines 94-97: the [while os.path.exists(sent_file_path)] loop, run for at
    most [fuel] tests of its condition. *)
Fixpoint while_exists (fuel : nat) (date_part name_part ext : string)
    (sent_file_path : string) (counter : nat) : M string :=
  match fuel with
  | O => λ w, (Diverge, w)
  | S fuel' =>
      do b <- Os.path_exists sent_file_path;
      if b : bool then
        let unique := unique_name date_part name_part counter ext in
        while_exists fuel' date_part name_part ext (Path.join "Sent" unique) (counter + 1)
      else ret sent_file_path
  end.

(** Lines 81-98.  The loop gets two more tests than the file system has
    entries; it leaves before they are used up ([SentFacts.first_free],
    [Total.total_move_to_sent_folder]). *)
Definition move_to_sent_folder (pay_stub_path : string) : M unit :=
  let sent_folder_path := "Sent" in
  let original_name := Path.basename pay_stub_path in
  let '(base, ext) := Path.splitext original_name in
  do parts <- unpack2 (Str.split1 " - " base);
  let '(date_part, name_part) := parts in
  let sent_file_path := Path.join sent_folder_path original_name in
  do sent_file_path <-
    (λ w, while_exists (2 + size (fs w)) date_part name_part ext sent_file_path 1 w);
  Os.rename pay_stub_path sent_file_path.

(** Lines 51-79.  [body] is [None] when the caller leaves the default. *)
Definition send_email (sender_email sender_password receiver_email pay_stub_path : string)
    (body : option string) : M unit :=
  let body := default "" body in
  let sent_folder_path := "Sent" in
  do b <- Os.path_exists sent_folder_path;
  (if b : bool then ret tt else Os.makedirs sent_folder_path) >>
  let msg := Message [("Subject", "Pay Stub"); ("From", sender_email); ("To", receiver_email)]
               body [] in
  do file_data <- Os.read_binary pay_stub_path;
  let msg := Message (headers msg) (content msg)
               (attachments msg ++
                [Attachment "application" "pdf" (Path.basename pay_stub_path) file_data]) in
  with_ (Smtp.connect_ssl "smtp.gmail.com" 465) Smtp.quit
    (λ server, Smtp.login sender_email sender_password >> Smtp.send_message msg) >>
  move_to_sent_folder pay_stub_path.

(** Lines 138-145. *)
Definition move_to_failed_send_folder (output_pdf_path : string) : M unit :=
  Os.rename output_pdf_path (Path.join "Failed to Send" output_pdf_path).

(** Lines 123-126: the one-page document of page [page_num], saved under
    [output_pdf_path]. *)
Definition split_page (doc : list page) (page_num : nat) (output_pdf_path : string) : M unit :=
  do stub_pdf <- Fitz.open_new;
  do stub_pdf <- Fitz.insert_pdf stub_pdf doc page_num;
  Fitz.save stub_pdf output_pdf_path >>
  Fitz.close Stub.

Section Pipeline.

(** The domain part of the pattern of line 118. *)
Variable dom : Re.regex.
Variables (period_end_date sender_email sender_password email_body : string).

(** Lines 116-135: the body of the [for] loop. *)
Definition process_page (doc : list page) (page_num : nat) (pg : page) : M unit :=
  let text := page_text pg in
  match extract dom text with
  | Some (email, email_identifier) =>
      let output_pdf_path := period_end_date +:+ " - " +:+ email_identifier +:+ ".pdf" in
      split_page doc page_num output_pdf_path >>
      try_except
        (send_email sender_email sender_password email output_pdf_path (Some email_body) >>
         print (SentTo email))
        (λ e, print (FailedTo email e) >> move_to_failed_send_folder output_pdf_path)
  | None => print (NoEmailOnPage (page_num + 1))
  end.

(** [for page_num in range(len(doc))], from [page_num] on. *)
Fixpoint for_pages (doc : list page) (page_num : nat) (todo : list page) : M unit :=
  match todo with
  | [] => ret tt
  | pg :: todo' => process_page doc page_num pg >> for_pages doc (S page_num) todo'
  end.

(** Lines 100-136. *)
Definition process_pay_stubs (pdf_path : string) : M unit :=
  do b <- Os.path_exists "Failed to Send";
  (if b : bool then ret tt else Os.makedirs "Failed to Send") >>
  do doc <- Fitz.open pdf_path;
  for_pages doc 0 doc >>
  Fitz.close (Source pdf_path).

End Pipeline.

(** Line 165 of [main]: the date as [process_pay_stubs] receives it. *)
Definition formatted_date (period_end_date : string) : string :=
  Str.replace "/" "-" period_end_date.

(** * Specification vocabulary *)

(** [a] is an address under [domain]: a non-empty run of local-part
    characters, [@], the domain, [.com]. *)
Definition is_address (domain a : string) : Prop :=
  ∃ l, l ≠ "" ∧ Str.all is_local l = true ∧ a = l +:+ "@" +:+ domain +:+ ".com".

(** The working-directory path of the artifact of one page (line 122). *)
Definition artifact_path (period_end_date identifier : string) : string :=
  period_end_date +:+ " - " +:+ identifier +:+ ".pdf".

(** The world once directory [name] is sure to exist: lines 63-64 and
    111-112. *)
Definition ensure_dir (name : string) (w : world) : world :=
  set_fs (λ m, if bool_decide (is_Some (m !! name)) then m else <[name := Dir]> m) w.

(** The message of lines 66-74. *)
Definition pay_stub_message (sender receiver body name : string) (d : data) : message :=
  Message [("Subject", "Pay Stub"); ("From", sender); ("To", receiver)] body
    [Attachment "application" "pdf" name d].

(** What one session puts on the wire, by the way the network treats it. *)
Definition session_events (user password : string) (msg : message) (o : net_outcome)
    : list smtp_event :=
  match o with
  | NetOk =>
      [Connected "smtp.gmail.com" 465 ImplicitTLS; LoggedIn user password; Accepted msg; Quit]
  | NetConnectFails => [ConnectFailed "smtp.gmail.com" 465 ImplicitTLS]
  | NetLoginFails =>
      [Connected "smtp.gmail.com" 465 ImplicitTLS; LoginRejected user password; Quit]
  | NetSendFails =>
      [Connected "smtp.gmail.com" 465 ImplicitTLS; LoggedIn user password; Rejected msg; Quit]
  end.

Definition session_error (o : net_outcome) : option exn :=
  match o with
  | NetOk => None
  | NetConnectFails => Some SMTPConnectError
  | NetLoginFails => Some SMTPAuthenticationError
  | NetSendFails => Some SMTPDataError
  end.

Definition after_session (user password : string) (msg : message) (w : world) : world :=
  pop_net (add_wire (session_events user password msg (Smtp.outcome w)) w).

(** The world after a page has been split into its artifact. *)
Definition after_split (pg : page) (path : string) (w : world) : world :=
  add_handle (Closed Stub)
    (set_fs (insert path (File (Pdf [pg]))) (add_handle (Opened Stub) w)).

(** How many sessions a stretch of wire traffic opens (or tries to). *)
Definition opens_session (e : smtp_event) : bool :=
  match e with
  | Connected _ _ _ | ConnectFailed _ _ _ => true
  | _ => false
  end.

Definition sessions_opened (es : list smtp_event) : nat :=
  List.length (List.filter opens_session es).

(** [m] only ever takes a world to one that is [P]-related to it. *)
Definition keeps (P : world → world → Prop) {A} (m : M A) : Prop :=
  ∀ w, P w (m w).2.

(** [m] always comes back, with a value or with an exception. *)
Definition total {A} (m : M A) : Prop := ∀ w, (m w).1 ≠ Diverge.

Definition same_wire (w w' : world) : Prop := wire w' = wire w.

Definition stub_event (e : doc_event) : Prop := e = Opened Stub ∨ e = Closed Stub.

(** The handle log has grown, and only by events of stub documents. *)
Definition stub_events_only (w w' : world) : Prop :=
  ∃ evs, handles w' = handles w ++ evs ∧ Forall stub_event evs.

(** The name that filing under [Sent] tries at attempt [n]: the artifact's own
    name first, then the numbered ones. *)
Definition sent_name (original date rest ext : string) (n : nat) : string :=
  match n with
  | O => original
  | S _ => date +:+ " - " +:+ rest +:+ " - " +:+ pretty n +:+ ext
  end.

(** * Scenarios *)

Module Scenario.

Definition alice : page := Page "Pay stub 01/15/2024 for alice@acme.com" true.
Definition bob : page := Page "Pay stub 01/15/2024 for bob@acme.com" true.
Definition blank : page := Page "This page is intentionally left blank" true.

(** A page with an address that MuPDF cannot copy. *)
Definition damaged (pg : page) : page := Page (page_text pg) false.

Definition alice_pdf : string := "01-15-2024 - alice.pdf".
Definition bob_pdf : string := "01-15-2024 - bob.pdf".

(** A working directory that holds the source document and [extra]. *)
Definition start (pages : list page) (extra : list (string * node))
    (net : list net_outcome) : world :=
  World (<["in.pdf" := File (Pdf pages)]> (list_to_map extra)) [] [] net [].

(** A run of the script for the domain [acme]. *)
Definition run (w : world) : result unit * world :=
  process_pay_stubs (configured "acme") "01-15-2024" "me@gmail.com" "secret" "" "in.pdf" w.

(** One step of the loop, on page [n] of [doc]. *)
Definition step (doc : list page) (n : nat) (pg : page) (w : world) : result unit * world :=
  process_page (configured "acme") "01-15-2024" "me@gmail.com" "secret" "" doc n pg w.

Definition loop (doc : list page) (n : nat) (todo : list page) (w : world)
    : result unit * world :=
  for_pages (configured "acme") "01-15-2024" "me@gmail.com" "secret" "" doc n todo w.

End Scenario.

(** * The rest of [main.py]: paths of the installation *)

Module PosixPath.

(** [s.rstrip(c)] for a one-character [c]. *)
Fixpoint rstrip (c : ascii) (s : string) : string :=
  match s with
  | "" => ""
  | String a s' =>
      match rstrip c s' with
      | "" => if decide (a = c) then "" else String a ""
      | r => String a r
      end
  end.

(** [s.split(c)] for a one-character [c]. *)
Fixpoint split (c : ascii) (s : string) : list string :=
  match s with
  | "" => [""]
  | String a s' =>
      if decide (a = c) then "" :: split c s'
      else
        match split c s' with
        | x :: xs => String a x :: xs
        | [] => [String a ""]
        end
  end.

(** [sep.join(xs)] *)
Fixpoint sep_join (sep : string) (xs : list string) : string :=
  match xs with
  | [] => ""
  | [x] => x
  | x :: xs' => x +:+ sep +:+ sep_join sep xs'
  end.

(** [c * n] *)
Fixpoint times (c : ascii) (n : nat) : string :=
  match n with
  | O => ""
  | S n' => String c (times c n')
  end.

Definition startswith (t s : string) : bool := bool_decide (is_Some (Str.strip_prefix t s)).

(** [os.path.isabs(p)] *)
Definition isabs (p : string) : bool := startswith "/" p.

(** [os.path.dirname(p)] *)
Definition dirname (p : string) : string :=
  let i := Str.rfind "/" p + 1 in
  let head := Str.slice_to i p in
  if negb (bool_decide (head = ""))
     && negb (bool_decide (head = times "/" (String.length head)))
  then rstrip "/" head
  else head.

(** One turn of the loop of [normpath] over the components. *)
Definition norm_step (initial_slashes : nat) (new_comps : list string) (comp : string)
    : list string :=
  if bool_decide (comp = "") || bool_decide (comp = ".") then new_comps
  else if negb (bool_decide (comp = ".."))
          || (bool_decide (initial_slashes = 0%nat) && bool_decide (new_comps = []))
          || (negb (bool_decide (new_comps = [])) && bool_decide (last new_comps = Some ".."))
       then new_comps ++ [comp]
       else if bool_decide (new_comps = []) then new_comps
            else removelast new_comps.

(** [os.path.normpath(path)] *)
Definition normpath (path : string) : string :=
  if bool_decide (path = "") then "."
  else
    let initial_slashes : nat :=
      if startswith "/" path then
        if startswith "//" path && negb (startswith "///" path) then 2%nat else 1%nat
      else 0%nat in
    let comps := split "/" path in
    let comps := fold_left (norm_step initial_slashes) comps [] in
    let path := sep_join "/" comps in
    let path := times "/" initial_slashes +:+ path in
    if bool_decide (path = "") then "." else path.

(** [os.path.abspath(path)] in the working directory [cwd]. *)
Definition abspath (cwd path : string) : string :=
  normpath (if isabs path then path else Path.join cwd path).

End PosixPath.

(** What the interpreter knows about the installation: [sys.frozen],
    [sys.executable], [__file__] and [os.getcwd()]. *)
Record runtime := Runtime {
  frozen : bool;
  executable : string;
  script_file : string;
  cwd : string
}.

(** Lines 13-27. *)
Definition resource_path (rt : runtime) (relative_path : string) : string :=
  let application_path :=
    if frozen rt then PosixPath.dirname (executable rt)
    else PosixPath.dirname (PosixPath.abspath (cwd rt) (script_file rt)) in
  Path.join application_path relative_path.

(** * The rest of [main.py]: the secret and the dialogue *)

Module Console.

(** The exceptions of the script as a whole: those of the pipeline and
    those of the dialogue. *)
Inductive pyexn :=
| Lib (e : exn)
| GoogleAPIError
| KeyError (key : string)
| TypeError
| EOFError.

(** What [json.loads] can give: [None] for [null], a dictionary of strings,
    or something that is not a dictionary. *)
Inductive pyvalue :=
| PyNone
| PyDict (d : gmap string string)
| PyOther.

(** What the Secret Manager does with a request for a secret version. *)
Inductive access :=
| Denied                      (* the call raises *)
| Garbled                     (* the payload is not UTF-8 or not JSON *)
| Payload (v : pyvalue).      (* the payload parses to [v] *)

Inductive shown :=
| Asked (prompt : string)     (* the prompt of an [input] *)
| Said (text : string)        (* a [print] of [main] *)
| SaidSecretError.            (* the error line of [getSecret] *)

Record console := Console {
  machine : world;
  stdin : list string;                       (* the lines still to be typed *)
  screen : list shown;
  cloud : string → option (string → access)  (* service account file to client *)
}.

Definition set_machine (w : world) (c : console) : console :=
  Console w (stdin c) (screen c) (cloud c).
Definition show (x : shown) (c : console) : console :=
  Console (machine c) (stdin c) (screen c ++ [x]) (cloud c).
Definition set_stdin (l : list string) (c : console) : console :=
  Console (machine c) l (screen c) (cloud c).

Inductive outcome (A : Type) :=
| Done (a : A)
| Fail (e : pyexn)
| Hang.
Arguments Done {A} a.
Arguments Fail {A} e.
Arguments Hang {A}.

Definition T (A : Type) : Type := console → outcome A * console.

Definition ret {A} (a : A) : T A := λ c, (Done a, c).
Definition raise {A} (e : pyexn) : T A := λ c, (Fail e, c).
Definition bind {A B} (m : T A) (f : A → T B) : T B := λ c,
  match m c with
  | (Done a, c') => f a c'
  | (Fail e, c') => (Fail e, c')
  | (Hang, c') => (Hang, c')
  end.

(** [try: m  except Exception as e: h e] *)
Definition try_except {A} (m : T A) (h : pyexn → T A) : T A := λ c,
  match m c with
  | (Fail e, c') => h e c'
  | r => r
  end.

(** A step of the pipeline, run on the machine of the console. *)
Definition lift {A} (m : M A) : T A := λ c,
  match m (machine c) with
  | (Ok a, w) => (Done a, set_machine w c)
  | (Raise e, w) => (Fail (Lib e), set_machine w c)
  | (Diverge, w) => (Hang, set_machine w c)
  end.

Declare Scope console_scope.
Delimit Scope console_scope with console.
Notation "'do' x <- m ; k" := (bind m (λ x, k))
  (at level 10, x name, m at level 100, k at level 200) : console_scope.
Notation "m >> k" := (bind m (λ _, k))
  (at level 100, k at level 200, right associativity) : console_scope.
Local Open Scope console_scope.

(** [input(prompt)]: the prompt is shown, then a line is read. *)
Definition input (prompt : string) : T string := λ c,
  match stdin c with
  | l :: rest => (Done l, set_stdin rest (show (Asked prompt) c))
  | [] => (Fail EOFError, show (Asked prompt) c)
  end.

Definition print (text : string) : T unit := λ c, (Done tt, show (Said text) c).

(** [SecretManagerServiceClient.from_service_account_json(service_account)] *)
Definition from_service_account_json (service_account : string) : T (string → access) :=
  λ c,
    match cloud c service_account with
    | Some client => (Done client, c)
    | None => (Fail (Lib FileNotFoundError), c)
    end.

(** [client.access_secret_version(request={"name": name})] *)
Definition access_secret_version (client : string → access) (name : string) : T access :=
  match client name with
  | Denied => raise GoogleAPIError
  | a => ret a
  end.

(** [json.loads(response.payload.data.decode("UTF-8"))] *)
Definition json_loads_decode (response : access) : T pyvalue :=
  match response with
  | Payload v => ret v
  | _ => raise (Lib ValueError)
  end.

(** Lines 29-49. *)
Definition getSecret (project_id secret_id service_account : string) : T pyvalue :=
  try_except
    (do client <- from_service_account_json service_account;
     let secret_name :=
       "projects/" +:+ project_id +:+ "/secrets/" +:+ secret_id +:+ "/versions/latest" in
     do response <- access_secret_version client secret_name;
     do secret_values <- json_loads_decode response;
     ret secret_values)
    (λ e, (λ c, (Done tt, show SaidSecretError c)) >> ret PyNone).

(** [secretValues[key]] *)
Definition subscript (v : pyvalue) (key : string) : T string :=
  match v with
  | PyDict d =>
      match d !! key with
      | Some x => ret x
      | None => raise (KeyError key)
      end
  | _ => raise TypeError
  end.

Section Main.

(** The domain part of the pattern, the installation, and the path handling
    the placeholder module [filepath] stands for. *)
Variable dom : Re.regex.
Variable rt : runtime.
Variable FilePath : string → string.

(** Lines 147-170. *)
Definition main : T unit :=
  let PROJECT_ID := "your-google-cloud-project-id" in
  let SECRET_ID := "your-secret-id" in
  let service_Account := FilePath "path-to-your-service-account-file.json" in
  do pdf_file_name <- input "Please enter the file name of the PDF: ";
  let pdf_path := resource_path rt pdf_file_name in
  do secretValues <- getSecret PROJECT_ID SECRET_ID service_Account;
  match secretValues with
  | PyNone => ret tt
  | _ =>
      do sender_email <- subscript secretValues "email";
      do password <- subscript secretValues "email_password";
      do period_end_date <- input "Please enter the Period End Date (MM/DD/YYYY): ";
      let formatted_date := formatted_date period_end_date in
      do email_body <-
        input "Please enter any additional message for the email body (optional): ";
      lift (process_pay_stubs dom formatted_date sender_email password email_body pdf_path) >>
      print "Paystubs sent. Please review the 'Failed to Send' folder for any issues." >>
      input "Press Enter to exit..." >>
      ret tt
  end.

(** Lines 172-174. *)
Definition script : T unit :=
  print "Paystub Processing Script" >> main.

End Main.

End Console.

(** * More vocabulary *)

Definition same_stdout (w w' : world) : Prop := stdout w' = stdout w.

(** The wire has grown by traffic that opens at most [k] sessions. *)
Definition wire_grows (k : nat) (w w' : world) : Prop :=
  ∃ evs, wire w' = wire w ++ evs ∧ (sessions_opened evs ≤ k)%nat.

(** [a] is an address of the pattern as shipped: a non-empty run of
    local-part characters, [@], one character of the class [[domain]],
    [.com]. *)
Definition is_shipped_address (a : string) : Prop :=
  ∃ l c, l ≠ "" ∧ Str.all is_local l = true ∧ Str.mem c "domain" = true
    ∧ a = l +:+ "@" +:+ String c ".com".

(** The SMTP traffic page [pg] can cause: none when it names no recipient;
    when it does, none (the split failed) or the events of the one session
    that carries the page's artifact to the page's address. *)
Definition page_traffic (dom : Re.regex) (date sender pw body : string) (pg : page)
    (evs : list smtp_event) : Prop :=
  match extract dom (page_text pg) with
  | Some (email, ident) =>
      evs = []
      ∨ ∃ o, evs = session_events sender pw
                     (pay_stub_message sender email body
                        (Path.basename (artifact_path date ident)) (Pdf [pg])) o
  | None => evs = []
  end.

(** Whether a page names a recipient. *)
Definition addressed (dom : Re.regex) (pg : page) : bool :=
  bool_decide (is_Some (extract dom (page_text pg))).

(** The line [l] is one that page [n] (from 0) can have caused. *)
Definition line_fits (dom : Re.regex) (n : nat) (pg : page) (l : line) : Prop :=
  match extract dom (page_text pg) with
  | Some (email, _) => l = SentTo email ∨ ∃ e, l = FailedTo email e
  | None => l = NoEmailOnPage (n + 1)
  end.

(** The line of page [n] when everything goes well. *)
Definition good_line (dom : Re.regex) (n : nat) (pg : page) : line :=
  match extract dom (page_text pg) with
  | Some (email, _) => SentTo email
  | None => NoEmailOnPage (n + 1)
  end.

(** What [process_page] can rely on when nothing is to go wrong. *)
Definition unobstructed (domain date : string) (todo : list page) (w : world) : Prop :=
  (∀ d, fs w !! "Sent" ≠ Some (File d))
  ∧ (∀ pg email ident, pg ∈ todo →
       extract (configured domain) (page_text pg) = Some (email, ident) →
       fs w !! artifact_path date ident ≠ Some Dir)
  ∧ Forall (λ o, o = NetOk) (net w).

(** The names [main] asks the Secret Manager with. *)
Definition PROJECT_ID : string := "your-google-cloud-project-id".
Definition SECRET_ID : string := "your-secret-id".
Definition service_account_file : string := "path-to-your-service-account-file.json".

(** The secret a console holds for [main]: the parsed payload of the latest
    version, when the client can be built, the request is granted and the
    payload is JSON. *)
Definition stored_secret (project_id secret_id service_account : string)
    (c : Console.console) : option Console.pyvalue :=
  match Console.cloud c service_account with
  | Some client =>
      match client ("projects/" +:+ project_id +:+ "/secrets/" +:+ secret_id
                    +:+ "/versions/latest") with
      | Console.Payload v => Some v
      | _ => None
      end
  | None => None
  end.

(** The prompts of [main], in the order they are shown. *)
Definition ask_pdf : Console.shown :=
  Console.Asked "Please enter the file name of the PDF: ".
Definition ask_date : Console.shown :=
  Console.Asked "Please enter the Period End Date (MM/DD/YYYY): ".
Definition ask_body : Console.shown :=
  Console.Asked "Please enter any additional message for the email body (optional): ".
Definition say_done : Console.shown :=
  Console.Said "Paystubs sent. Please review the 'Failed to Send' folder for any issues.".
Definition ask_enter : Console.shown := Console.Asked "Press Enter to exit...".

(** * Scenarios of the dialogue *)

Module Desk.

Definition installed : runtime := Runtime false "/usr/bin/python3" "main.py" "/home/pay".
Definition packaged : runtime := Runtime true "/opt/paystub/paystub" "main.py" "/home/pay".

Definition secret_name : string :=
  "projects/your-google-cloud-project-id/secrets/your-secret-id/versions/latest".

(** A Secret Manager that knows the service account of [main] and answers
    [a] when asked for its secret. *)
Definition manager (a : Console.access) : string → option (string → Console.access) :=
  λ account,
    if decide (account = service_account_file)
    then Some (λ name, if decide (name = secret_name) then a else Console.Denied)
    else None.

Definition credentials : gmap string string :=
  <["email" := "me@gmail.com"]> (<["email_password" := "secret"]> ∅).

(** The machine of the installation, with the source document next to the
    script. *)
Definition office (pages : list page) (net : list net_outcome) : world :=
  World (<["/home/pay/in.pdf" := File (Pdf pages)]> ∅) [] [] net [].

Definition desk (w : world) (typed : list string) (a : Console.access) : Console.console :=
  Console.Console w typed [] (manager a).

Definition dialogue : Console.T unit := Console.main (configured "acme") installed (λ p, p).

End Desk.

(** * Facts about strings *)

Module StrFacts.

Lemma app_cons a s t : String a s +:+ t = String a (s +:+ t).
Proof. reflexivity. Qed.

Lemma app_nil_l s : "" +:+ s = s.
Proof. reflexivity. Qed.

Lemma app_nil_r s : s +:+ "" = s.
Proof. induction s as [|a s IH]; [done|]. by rewrite app_cons, IH. Qed.

Lemma app_assoc s t u : (s +:+ t) +:+ u = s +:+ t +:+ u.
Proof. induction s as [|a s IH]; [done|]. by rewrite !app_cons, IH. Qed.

Lemma length_app s t : String.length (s +:+ t) = (String.length s + String.length t)%nat.
Proof. induction s as [|a s IH]; [done|]. rewrite app_cons. simpl. by rewrite IH. Qed.

Lemma take_app s t : Str.take (String.length s) (s +:+ t) = s.
Proof. induction s as [|a s IH]; [by destruct t|]. rewrite app_cons. simpl. by rewrite IH. Qed.

Lemma take_app_sub s t :
  Str.take (String.length (s +:+ t) - String.length t) (s +:+ t) = s.
Proof.
  rewrite length_app.
  replace (String.length s + String.length t - String.length t)%nat
    with (String.length s) by lia.
  apply take_app.
Qed.

Lemma drop_app s t : Str.drop (String.length s) (s +:+ t) = t.
Proof. induction s as [|a s IH]; [by destruct t|]. rewrite app_cons. by simpl. Qed.

Lemma strip_prefix_app t s : Str.strip_prefix t (t +:+ s) = Some s.
Proof.
  induction t as [|a t IH]; [by destruct s|].
  rewrite app_cons. simpl. by rewrite decide_True.
Qed.

Lemma strip_prefix_Some t s r : Str.strip_prefix t s = Some r → s = t +:+ r.
Proof.
  revert s. induction t as [|a t IH]; intros s H.
  - destruct s; simpl in H; by inversion H.
  - destruct s as [|b s]; simpl in H; [done|].
    case_decide; [|done]. subst b. rewrite app_cons. f_equal. by apply IH.
Qed.

Lemma strip_prefix_cat t u s :
  Str.strip_prefix (t +:+ u) s =
  match Str.strip_prefix t s with
  | Some s' => Str.strip_prefix u s'
  | None => None
  end.
Proof.
  revert s. induction t as [|a t IH]; intros s.
  - by destruct s.
  - rewrite app_cons. destruct s as [|b s]; [done|]. simpl.
    case_decide; [apply IH|done].
Qed.

Lemma all_app p s t : Str.all p (s +:+ t) = Str.all p s && Str.all p t.
Proof.
  induction s as [|a s IH]; [done|].
  rewrite app_cons. simpl. rewrite IH. by destruct (p a).
Qed.

(** Two ways to cut a string at the same place agree. *)
Lemma app_inj_length s1 t1 s2 t2 :
  s1 +:+ t1 = s2 +:+ t2 → String.length s1 = String.length s2 → s1 = s2 ∧ t1 = t2.
Proof.
  revert s2. induction s1 as [|a s1 IH]; intros [|b s2] H Hl; simpl in Hl; try done.
  rewrite !app_cons in H. inversion H; subst.
  destruct (IH s2) as [-> ->]; [done|lia|done].
Qed.

(** A shorter prefix of the same string is a prefix of the longer one. *)
Lemma app_shorter s1 t1 s2 t2 :
  s1 +:+ t1 = s2 +:+ t2 → (String.length s1 < String.length s2)%nat →
  ∃ a m, s2 = s1 +:+ String a m ∧ t1 = String a m +:+ t2.
Proof.
  revert s2. induction s1 as [|a s1 IH]; intros [|b s2] H Hl; simpl in Hl; try lia.
  - rewrite app_nil_l in H. subst t1. by exists b, s2.
  - rewrite !app_cons in H. inversion H; subst.
    destruct (IH s2) as (c & m & -> & ->); [done|lia|].
    by exists c, m.
Qed.

Lemma take_drop n s : Str.take n s +:+ Str.drop n s = s.
Proof.
  revert s. induction n as [|n IH]; intros [|a s]; try done.
  simpl. by rewrite app_cons, IH.
Qed.

Lemma mem_app c s t : Str.mem c (s +:+ t) = Str.mem c s || Str.mem c t.
Proof.
  induction s as [|a s IH]; [done|].
  rewrite app_cons. simpl. rewrite IH. by destruct (bool_decide (a = c)).
Qed.

Lemma app_inj_r s t e : s +:+ e = t +:+ e → s = t.
Proof.
  intros H. apply (app_inj_length s e t e); [done|].
  apply (f_equal String.length) in H. rewrite !length_app in H. lia.
Qed.

Lemma rfind_ge c s : -1 ≤ Str.rfind c s.
Proof.
  induction s as [|a s IH]; simpl; [lia|].
  destruct (Z.leb_spec 0 (Str.rfind c s)); [lia|]. case_decide; lia.
Qed.

Lemma rfind_none c s : Str.rfind c s < 0 ↔ Str.mem c s = false.
Proof.
  induction s as [|a s IH]; simpl; [done|].
  pose proof (rfind_ge c s).
  destruct (Z.leb_spec 0 (Str.rfind c s)).
  - split; [lia|]. intros [_ Hm]%orb_false_iff. apply IH in Hm. lia.
  - case_decide.
    + rewrite bool_decide_eq_true_2 by done. simpl. split; [lia|done].
    + rewrite bool_decide_eq_false_2 by done. simpl. rewrite <- IH. lia.
Qed.

(** After the last occurrence of [c] there is none. *)
Lemma mem_after_rfind c s :
  Str.mem c (Str.slice_from (Str.rfind c s + 1) s) = false.
Proof.
  unfold Str.slice_from. induction s as [|a s IH]; [done|]. simpl Str.rfind.
  pose proof (rfind_ge c s).
  destruct (Z.leb_spec 0 (Str.rfind c s)).
  - replace (Z.to_nat (Str.rfind c s + 1 + 1)) with (S (Z.to_nat (Str.rfind c s + 1))) by lia.
    apply IH.
  - assert (Str.mem c s = false) by (apply rfind_none; lia).
    case_decide; simpl; [done|].
    by rewrite bool_decide_eq_false_2.
Qed.

Lemma rfind_last c s t :
  Str.mem c t = false → Str.rfind c (s +:+ String c t) = Z.of_nat (String.length s).
Proof.
  intros Ht. apply rfind_none in Ht.
  induction s as [|a s IH].
  - rewrite app_nil_l. simpl.
    destruct (Z.leb_spec 0 (Str.rfind c t)); [lia|]. by rewrite decide_True.
  - rewrite app_cons. simpl Str.rfind. rewrite IH.
    destruct (Z.leb_spec 0 (Z.of_nat (String.length s))); simpl String.length; lia.
Qed.

Lemma partition_Some sep s a b :
  Str.partition sep s = Some (a, b) → s = a +:+ sep +:+ b.
Proof.
  revert a. induction s as [|c s IH]; intros a H; simpl in H.
  - destruct (Str.strip_prefix sep "") as [rest|] eqn:Hs; [|done].
    injection H as <- <-. by apply strip_prefix_Some in Hs.
  - destruct (Str.strip_prefix sep (String c s)) as [rest|] eqn:Hs.
    + injection H as <- <-. by apply strip_prefix_Some in Hs.
    + destruct (Str.partition sep s) as [[x y]|]; [|done].
      injection H as <- <-. rewrite app_cons. f_equal. by apply IH.
Qed.

Lemma partition_app sep x y : is_Some (Str.partition sep (x +:+ sep +:+ y)).
Proof.
  induction x as [|c x IH].
  - rewrite app_nil_l.
    destruct (sep +:+ y) eqn:E; simpl; rewrite <- E, strip_prefix_app; eauto.
  - rewrite app_cons. simpl.
    destruct (Str.strip_prefix sep _); [eauto|].
    destruct IH as [[a b] ->]. eauto.
Qed.

Lemma replace_no_slash s : Str.mem "/" (Str.replace "/" "-" s) = false.
Proof.
  induction s as [|c s IH]; [done|]. simpl. rewrite IH, orb_false_r.
  apply bool_decide_eq_false_2. by case_decide.
Qed.

(** [str(n)] is made of digits. *)
Lemma pretty_N_go_no_slash x s :
  Str.mem "/" s = false → Str.mem "/" (pretty_N_go x s) = false.
Proof.
  revert s. induction (N.lt_wf_0 x) as [x _ IH]; intros s Hs.
  destruct (decide (0 < x)%N) as [Hx|Hx].
  - rewrite pretty_N_go_step by done. apply IH.
    + by apply N.div_lt.
    + simpl. rewrite Hs, orb_false_r.
      apply bool_decide_eq_false_2. unfold pretty_N_char.
      by repeat case_match.
  - assert (x = 0%N) as -> by lia. by rewrite pretty_N_go_0.
Qed.

Lemma pretty_nat_no_slash (n : nat) : Str.mem "/" (pretty n) = false.
Proof.
  unfold pretty, pretty_nat, pretty, pretty_N.
  case_decide; [done|]. by apply pretty_N_go_no_slash.
Qed.

End StrFacts.

(** * Facts about the matcher *)

Module ReFacts.
Import StrFacts.

Section Exec.
Context {A : Type}.
Implicit Types (k : string → option string → option A) (s t : string).

Lemma exec_literal t r s g k :
  Re.exec (Re.Cat (Re.literal t) r) s g k =
  match Str.strip_prefix t s with
  | Some s' => Re.exec r s' g k
  | None => None
  end.
Proof.
  revert s. induction t as [|a t IH]; intros s.
  - by destruct s.
  - destruct s as [|b s]; [done|]. simpl.
    repeat case_decide; subst; try done. apply IH.
Qed.

Lemma exec_literal_end t s g k :
  Re.exec (Re.literal t) s g k =
  match Str.strip_prefix t s with
  | Some s' => k s' g
  | None => None
  end.
Proof.
  revert s. induction t as [|a t IH]; intros s.
  - by destruct s.
  - destruct s as [|b s]; [done|]. simpl.
    repeat case_decide; subst; first [done | apply IH].
Qed.

End Exec.

Section Plus.
Context {A : Type}.
Implicit Types (k : string → option A) (s l : string).

(** What a successful greedy repetition took. *)
Lemma plus_sound p s k r :
  Re.plus p s k = Some r →
  ∃ l s', s = l +:+ s' ∧ l ≠ "" ∧ Str.all p l = true ∧ k s' = Some r.
Proof.
  revert r. induction s as [|a s IH]; intros r H; simpl in H; [done|].
  destruct (p a) eqn:Hp; [|done].
  destruct (Re.plus p s k) as [r'|] eqn:Hrec.
  - inversion H; subst r'.
    destruct (IH r eq_refl) as (l & s' & -> & Hne & Hall & Hk).
    exists (String a l), s'. simpl. by rewrite Hp, Hall.
  - exists (String a ""), s. simpl. by rewrite Hp.
Qed.

(** When the continuation refuses to start on a character of the class, the
    repetition hands over exactly after the whole run. *)
Lemma plus_run p l s' k :
  l ≠ "" → Str.all p l = true →
  (∀ a s, p a = true → k (String a s) = None) →
  Re.plus p s' k = None →
  Re.plus p (l +:+ s') k = k s'.
Proof.
  intros Hne Hall Hk Hstop. induction l as [|a l IH]; [done|].
  simpl in Hall. apply andb_prop in Hall as [Hp Hall].
  rewrite app_cons. simpl. rewrite Hp.
  destruct l as [|b l].
  - rewrite app_nil_l, Hstop. done.
  - rewrite IH by done.
    destruct (k s') eqn:Hks; [done|].
    rewrite app_cons. apply Hk. simpl in Hall. by apply andb_prop in Hall as [? _].
Qed.

End Plus.

Section Address.
Variable domain : string.

(** The continuation of the repetition never starts on a local-part
    character: the next thing it wants is [@]. *)
Lemma exec_after_local {A} r a s g (k : string → option string → option A) :
  is_local a = true → Re.exec (Re.Cat (Re.Lit "@") r) (String a s) g k = None.
Proof. intros Ha. simpl. case_decide; [by subst|done]. Qed.

Lemma exec_tail {A} s g (k : string → option string → option A) :
  Re.exec (Re.Cat (Re.Lit "@") (Re.Cat (configured domain) (Re.literal ".com"))) s g k =
  match Str.strip_prefix ("@" +:+ domain +:+ ".com") s with
  | Some rest => k rest g
  | None => None
  end.
Proof.
  destruct s as [|a s]; [done|].
  change (Str.strip_prefix ("@" +:+ domain +:+ ".com") (String a s))
    with (if decide ("@"%char = a) then Str.strip_prefix (domain +:+ ".com") s else None).
  cbn [Re.exec]. repeat case_decide; subst; try done.
  unfold configured.
  pose proof (exec_literal domain (Re.literal ".com") s g k) as H.
  cbn [Re.exec] in H. rewrite H. clear H.
  rewrite strip_prefix_cat.
  destruct (Str.strip_prefix domain s) as [s1|]; [|done].
  apply exec_literal_end.
Qed.

(** One attempt of the pattern at the head of [s]. *)
Lemma match_at_unfold dom s :
  Re.match_at (email_pattern dom) s =
  Re.plus is_local s (λ s',
    Re.exec (Re.Cat (Re.Lit "@") (Re.Cat dom (Re.literal ".com"))) s'
      (Some (Str.take (String.length s - String.length s') s))
      (λ s'' g, Some (Str.take (String.length s - String.length s'') s, g))).
Proof. reflexivity. Qed.

Lemma match_at_address l rest :
  l ≠ "" → Str.all is_local l = true →
  Re.match_at (email_pattern (configured domain))
    (l +:+ "@" +:+ domain +:+ ".com" +:+ rest)
  = Some (l +:+ "@" +:+ domain +:+ ".com", Some l).
Proof.
  intros Hne Hall. rewrite match_at_unfold.
  rewrite (plus_run is_local l) by
    (done || (intros; by apply exec_after_local)).
  rewrite exec_tail.
  rewrite <- !app_assoc, strip_prefix_app, !app_assoc.
  f_equal. f_equal.
  - rewrite <- (app_assoc domain), <- (app_assoc "@"), <- (app_assoc l).
    apply take_app_sub.
  - f_equal. apply take_app_sub.
Qed.

Lemma match_at_inv s g0 g1 :
  Re.match_at (email_pattern (configured domain)) s = Some (g0, g1) →
  ∃ l rest, s = l +:+ "@" +:+ domain +:+ ".com" +:+ rest ∧
    l ≠ "" ∧ Str.all is_local l = true ∧
    g0 = l +:+ "@" +:+ domain +:+ ".com" ∧ g1 = Some l.
Proof.
  rewrite match_at_unfold. intros H.
  apply plus_sound in H as (l & s' & -> & Hne & Hall & H).
  rewrite exec_tail in H.
  destruct (Str.strip_prefix _ s') as [rest|] eqn:Hs; [|done].
  apply strip_prefix_Some in Hs as ->.
  rewrite !app_assoc in H.
  exists l, rest. rewrite !app_assoc.
  injection H as <- <-. repeat split; try done.
  - rewrite <- (app_assoc domain), <- (app_assoc "@"), <- (app_assoc l).
    apply take_app_sub.
  - by rewrite take_app_sub.
Qed.

End Address.

(** [re.search] stops at the first position where an attempt succeeds. *)
Lemma search_from_spec r i s :
  match Re.search_from r i s with
  | Some m =>
      ∃ pre s1, s = pre +:+ s1 ∧ Re.m_start m = (i + String.length pre)%nat ∧
        Re.match_at r s1 = Some (Re.group0 m, Re.group1 m) ∧
        ∀ pre' s1', s = pre' +:+ s1' →
          (String.length pre' < String.length pre)%nat → Re.match_at r s1' = None
  | None => ∀ pre' s1', s = pre' +:+ s1' → Re.match_at r s1' = None
  end.
Proof.
  revert i. induction s as [|a s IH]; intros i; simpl.
  - destruct (Re.match_at r "") as [[g0 g1]|] eqn:Hm.
    + exists "", "". simpl. repeat split; [lia|done|]. intros ?? _ ?. simpl in *. lia.
    + intros [|??] [|??] H; by inversion H.
  - destruct (Re.match_at r (String a s)) as [[g0 g1]|] eqn:Hm.
    + exists "", (String a s). simpl. repeat split; [lia|done|]. intros ?? _ ?. simpl in *. lia.
    + specialize (IH (S i)). destruct (Re.search_from r (S i) s) as [m|].
      * destruct IH as (pre & s1 & -> & Hst & Hat & Hfirst).
        exists (String a pre), s1. rewrite app_cons. simpl.
        repeat split; [lia|done|].
        intros [|b pre'] s1' Heq Hlt.
        -- rewrite app_nil_l in Heq. by subst s1'.
        -- rewrite app_cons in Heq. injection Heq as -> Heq.
           apply (Hfirst pre' s1' Heq). simpl in Hlt. lia.
      * intros [|b pre'] s1' Heq.
        -- rewrite app_nil_l in Heq. by subst s1'.
        -- rewrite app_cons in Heq. injection Heq as -> Heq. by apply (IH pre').
Qed.

End ReFacts.

(** * The recipient extractor *)

(** After the replacement the comment of line 118 asks for: on every page
    text, the extractor returns the first (leftmost) substring of the form
    local-part, [@], the configured domain, [.com]; the address is that
    substring, the identifier is its local part, and the identifier is not
    empty.  Without such a substring it returns nothing. *)
Theorem configured_extract_first_address (domain text : string) :
  match extract (configured domain) text with
  | Some (address, identifier) =>
      identifier ≠ "" ∧ Str.all is_local identifier = true ∧
      address = identifier +:+ "@" +:+ domain +:+ ".com" ∧
      ∃ before after, text = before +:+ address +:+ after ∧
        ∀ before' a' after', text = before' +:+ a' +:+ after' →
          is_address domain a' →
          (String.length before < String.length before')%nat
          ∨ (before' = before ∧ a' = address)
  | None =>
      ∀ before' a' after', text = before' +:+ a' +:+ after' → ¬ is_address domain a'
  end.
Proof.
  unfold extract, Re.search.
  pose proof (ReFacts.search_from_spec (email_pattern (configured domain)) 0 text) as H.
  destruct (Re.search_from _ 0 text) as [[st g0 g1]|]; simpl in *.
  - destruct H as (pre & s1 & -> & _ & Hat & Hfirst).
    apply ReFacts.match_at_inv in Hat as (l & rest & -> & Hne & Hall & -> & ->).
    simpl. repeat split; try done.
    exists pre, rest. split; [by rewrite !StrFacts.app_assoc|].
    intros pre' a' post' Heq (l' & Hne' & Hall' & ->).
    destruct (Nat.lt_trichotomy (String.length pre) (String.length pre')) as [Hlt|[Hlen|Hgt]].
    + by left.
    + right. rewrite !StrFacts.app_assoc in Heq.
      apply StrFacts.app_inj_length in Heq as [<- Heq]; [|done]. split; [done|].
      pose proof (ReFacts.match_at_address domain l rest Hne Hall) as H1.
      pose proof (ReFacts.match_at_address domain l' post' Hne' Hall') as H2.
      rewrite Heq in H1. rewrite H1 in H2. by injection H2 as ->.
    + exfalso. rewrite !StrFacts.app_assoc in Heq.
      specialize (Hfirst pre' _ Heq Hgt).
      by rewrite (ReFacts.match_at_address domain l' post' Hne' Hall') in Hfirst.
  - intros pre' a' post' Heq (l' & Hne' & Hall' & ->).
    rewrite !StrFacts.app_assoc in Heq.
    specialize (H pre' _ Heq).
    by rewrite (ReFacts.match_at_address domain l' post' Hne' Hall') in H.
Qed.

(** * Facts about paths *)

Module PathFacts.
Import StrFacts.

Lemma basename_no_slash p : Str.mem "/" (Path.basename p) = false.
Proof. apply mem_after_rfind. Qed.

Lemma splitext_app q b e : Path.splitext q = (b, e) → q = b +:+ e.
Proof.
  unfold Path.splitext, Str.slice_to, Str.slice_from. intros H.
  repeat case_match; injection H as <- <-;
    by rewrite ?app_nil_r, ?take_drop.
Qed.

Lemma no_slash_not_absolute x :
  Str.mem "/" x = false → Str.strip_prefix "/" x = None.
Proof.
  destruct x as [|a x]; [done|]. simpl. intros [Ha _]%orb_false_iff.
  apply bool_decide_eq_false in Ha. by rewrite decide_False.
Qed.

(** Joining a plain directory name and a plain file name. *)
Lemma join_plain dir x :
  dir ≠ "" → Str.mem "/" dir = false → Str.mem "/" x = false →
  Path.join dir x = dir +:+ "/" +:+ x.
Proof.
  intros Hne Hdir Hx. unfold Path.join.
  rewrite no_slash_not_absolute by done.
  rewrite bool_decide_eq_false_2 by (by intros []).
  rewrite bool_decide_eq_false_2 by done.
  rewrite bool_decide_eq_false_2; [done|].
  apply rfind_none in Hdir. destruct dir; [done|]. simpl String.length. lia.
Qed.

Lemma parent_plain dir x :
  Str.mem "/" x = false → Path.parent (dir +:+ "/" +:+ x) = dir.
Proof.
  intros Hx. unfold Path.parent, Str.slice_to.
  change (dir +:+ "/" +:+ x) with (dir +:+ String "/" x).
  rewrite rfind_last by done. rewrite Nat2Z.id. apply take_app.
Qed.

End PathFacts.

(** * Filing under [Sent] *)

Module SentFacts.
Import StrFacts PathFacts.

Lemma unique_name_inj d r e n m : unique_name d r n e = unique_name d r m e → n = m.
Proof.
  unfold unique_name. intros H.
  do 4 apply (inj (String.app _)) in H.
  apply app_inj_r in H. by apply (inj pretty) in H.
Qed.

Lemma unique_name_no_slash d r e n :
  Str.mem "/" (d +:+ " - " +:+ r) = false → Str.mem "/" e = false →
  Str.mem "/" (unique_name d r n e) = false.
Proof.
  unfold unique_name. rewrite !mem_app.
  intros [Hd [_ Hr]%orb_false_iff]%orb_false_iff He.
  by rewrite Hd, Hr, He, pretty_nat_no_slash.
Qed.

Section Loop.
Variables (w : world) (d r e : string).
Hypothesis Hbase : Str.mem "/" (d +:+ " - " +:+ r) = false.
Hypothesis Hext : Str.mem "/" e = false.

Local Abbreviation cand n := ("Sent/" +:+ unique_name d r n e).

Lemma join_sent_unique n : Path.join "Sent" (unique_name d r n e) = cand n.
Proof. by rewrite join_plain by (done || by apply unique_name_no_slash). Qed.

(** The loop leaves at the first numbered name that is free. *)
Lemma while_exists_run fuel path c n :
  is_Some (fs w !! path) →
  (∀ m, (c ≤ m < n)%nat → is_Some (fs w !! cand m)) →
  fs w !! cand n = None →
  (c ≤ n)%nat → (n - c < fuel)%nat →
  while_exists (S fuel) d r e path c w = (Ok (cand n), w).
Proof.
  revert path c. induction fuel as [|fuel IH]; intros path c Hpath Hused Hfree Hle Hfuel; [lia|].
  cbn [while_exists]. unfold bind at 1, Os.path_exists at 1.
  rewrite bool_decide_eq_true_2 by done.
  rewrite join_sent_unique, Nat.add_1_r.
  destruct (decide (c = n)) as [->|Hne].
  - cbn [while_exists]. unfold bind, Os.path_exists.
    rewrite bool_decide_eq_false_2; [done|]. rewrite Hfree. by intros [].
  - apply IH; [apply Hused; lia | intros; apply Hused; lia | done | lia | lia].
Qed.

(** Either every numbered name up to [b] is taken, or there is a first free
    one. *)
Lemma first_free_below (b : nat) :
  (∀ m, (1 ≤ m ≤ b)%nat → is_Some (fs w !! cand m))
  ∨ ∃ n, (1 ≤ n ≤ b)%nat ∧ fs w !! cand n = None
         ∧ ∀ m, (1 ≤ m < n)%nat → is_Some (fs w !! cand m).
Proof.
  induction b as [|b [IH|(n & ? & ? & ?)]].
  - left. intros. lia.
  - destruct (fs w !! cand (S b)) eqn:E.
    + left. intros m Hm. destruct (decide (m = S b)) as [->|]; [by rewrite E|apply IH; lia].
    + right. exists (S b). split_and!; [lia|lia|done|]. intros. apply IH. lia.
  - right. exists n. split_and!; [lia|lia|done|done].
Qed.

(** A finite directory cannot hold all the numbered names. *)
Lemma taken_bound (b : nat) :
  (∀ m, (1 ≤ m ≤ b)%nat → is_Some (fs w !! cand m)) → (b ≤ size (fs w))%nat.
Proof.
  intros Hall.
  set (l := (λ n, cand n) <$> seq 1 b).
  assert (NoDup l) as Hnd.
  { apply NoDup_fmap_2_strong; [|apply NoDup_seq].
    intros x y _ _ H. apply (inj (String.app _)) in H. by apply unique_name_inj in H. }
  assert (l ⊆+ (map_to_list (fs w)).*1) as Hsub.
  { apply NoDup_submseteq; [done|]. intros k (n & -> & Hn%elem_of_seq)%list_elem_of_fmap.
    destruct (Hall n) as [v Hv]; [lia|].
    apply list_elem_of_fmap. exists (cand n, v). split; [done|].
    by apply elem_of_map_to_list. }
  apply submseteq_length in Hsub.
  unfold l in Hsub. by rewrite !length_fmap, length_seq, length_map_to_list in Hsub.
Qed.

Lemma first_free :
  ∃ n, (1 ≤ n ≤ S (size (fs w)))%nat ∧ fs w !! cand n = None
       ∧ ∀ m, (1 ≤ m < n)%nat → is_Some (fs w !! cand m).
Proof.
  destruct (first_free_below (S (size (fs w)))) as [Hall|H]; [|done].
  apply taken_bound in Hall. lia.
Qed.

End Loop.

Lemma unique_name_base d r n e :
  unique_name d r n e = (d +:+ " - " +:+ r) +:+ " - " +:+ pretty n +:+ e.
Proof. unfold unique_name. by rewrite !app_assoc. Qed.

(** A regular file moves into an existing directory, onto a name that is
    free or held by a regular file. *)
Lemma rename_into w src dir x d0 :
  fs w !! src = Some (File d0) → fs w !! dir = Some Dir → dir ≠ "" →
  Str.mem "/" x = false →
  fs w !! (dir +:+ "/" +:+ x) ≠ Some Dir →
  src ≠ dir +:+ "/" +:+ x →
  Os.rename src (dir +:+ "/" +:+ x) w =
    (Ok tt, set_fs (λ m, <[dir +:+ "/" +:+ x := File d0]> (delete src m)) w).
Proof.
  intros Hsrc Hdir Hne Hx Hnd Hdiff. unfold Os.rename, Os.check_parent.
  rewrite Hsrc, parent_plain by done.
  rewrite bool_decide_eq_false_2 by done. rewrite Hdir.
  rewrite bool_decide_eq_false_2 by done.
  by destruct (fs w !! (dir +:+ "/" +:+ x)) as [[]|].
Qed.

(** Lines 89-98 come down to one [os.rename] onto the first free name. *)
Lemma move_to_sent_folder_rename (w : world) (p date rest ext : string) :
  Path.splitext (Path.basename p) = (date +:+ " - " +:+ rest, ext) →
  ∃ n : nat,
    let name := sent_name (Path.basename p) date rest ext in
    (∀ m, (m < n)%nat → is_Some (fs w !! ("Sent/" +:+ name m))) ∧
    fs w !! ("Sent/" +:+ name n) = None ∧
    Str.mem "/" (name n) = false ∧
    move_to_sent_folder p w = Os.rename p ("Sent/" +:+ name n) w.
Proof.
  intros Hsplit.
  pose proof (basename_no_slash p) as Hns.
  pose proof (splitext_app _ _ _ Hsplit) as Hname.
  rewrite Hname, mem_app in Hns. apply orb_false_iff in Hns as [Hbase Hext].
  destruct (partition_app " - " date rest) as [[d' r'] Hpart].
  pose proof (partition_Some _ _ _ _ Hpart) as Hbase'.
  assert (Hname0 : Str.mem "/" (Path.basename p) = false) by apply basename_no_slash.
  assert (Hrun : ∃ n : nat,
    (∀ m, (m < n)%nat →
       is_Some (fs w !! ("Sent/" +:+ sent_name (Path.basename p) date rest ext m))) ∧
    fs w !! ("Sent/" +:+ sent_name (Path.basename p) date rest ext n) = None ∧
    Str.mem "/" (sent_name (Path.basename p) date rest ext n) = false ∧
    while_exists (2 + size (fs w)) d' r' ext (Path.join "Sent" (Path.basename p)) 1 w
      = (Ok ("Sent/" +:+ sent_name (Path.basename p) date rest ext n), w)).
  { rewrite join_plain by done.
    change ("Sent" +:+ "/" +:+ Path.basename p) with ("Sent/" +:+ Path.basename p).
    destruct (fs w !! ("Sent/" +:+ Path.basename p)) as [v|] eqn:Horig.
    - rewrite Hbase' in Hbase.
      destruct (first_free w d' r' ext) as (n & Hn & Hfree & Hused).
      exists n. destruct n as [|n']; [lia|].
      assert (Heq : ∀ m, unique_name d' r' m ext = unique_name date rest m ext).
      { intros m. by rewrite !unique_name_base, Hbase'. }
      assert (Hsn : ∀ m, sent_name (Path.basename p) date rest ext (S m)
                         = unique_name d' r' (S m) ext).
      { intros m. by rewrite Heq. }
      split_and!.
      + intros [|m] Hm; [cbn [sent_name]; by rewrite Horig|].
        rewrite Hsn. apply Hused. lia.
      + by rewrite Hsn.
      + rewrite Hsn. by apply unique_name_no_slash.
      + rewrite Hsn.
        apply while_exists_run; try done; lia.
    - exists 0%nat. split_and!; [intros; lia|done|done|].
      simpl. unfold bind, Os.path_exists.
      rewrite bool_decide_eq_false_2; [done|]. rewrite Horig. by intros []. }
  destruct Hrun as (n & Hused & Hfree & Hnsn & Hloop).
  exists n. split_and!; try done.
  unfold move_to_sent_folder. rewrite Hsplit. unfold Str.split1. rewrite Hpart.
  unfold bind at 1. simpl unpack2. unfold ret at 1.
  unfold bind at 1. by rewrite Hloop.
Qed.

End SentFacts.

(** C2: an artifact whose base name reads [<date> - <rest><ext>] is moved
    into [Sent] under the first free name of the sequence: its own name,
    then [<date> - <rest> - 1<ext>], [<date> - <rest> - 2<ext>], ...  Every
    earlier name of the sequence is taken, the chosen one is free, so the
    move replaces nothing: every other entry of the file system stays as it
    was. *)
Theorem move_to_sent_folder_spec (w : world) (p date rest ext : string) (artifact : data) :
  Path.splitext (Path.basename p) = (date +:+ " - " +:+ rest, ext) →
  fs w !! p = Some (File artifact) →
  fs w !! "Sent" = Some Dir →
  ∃ n : nat,
    let name := sent_name (Path.basename p) date rest ext in
    (∀ m, (m < n)%nat → is_Some (fs w !! ("Sent/" +:+ name m))) ∧
    fs w !! ("Sent/" +:+ name n) = None ∧
    move_to_sent_folder p w =
      (Ok tt, set_fs (λ m, <["Sent/" +:+ name n := File artifact]> (delete p m)) w) ∧
    ∀ q, q ≠ p → is_Some (fs w !! q) →
      fs (move_to_sent_folder p w).2 !! q = fs w !! q.
Proof.
  intros Hsplit Hfile Hsent.
  destruct (SentFacts.move_to_sent_folder_rename w p date rest ext Hsplit)
    as (n & Hused & Hfree & Hns & Hmove).
  assert (Hren : Os.rename p ("Sent/" +:+ sent_name (Path.basename p) date rest ext n) w =
    (Ok tt, set_fs (λ m, <["Sent/" +:+ sent_name (Path.basename p) date rest ext n
                           := File artifact]> (delete p m)) w)).
  { apply (SentFacts.rename_into w p "Sent"); try done.
    - change (fs w !! ("Sent/" +:+ sent_name (Path.basename p) date rest ext n) ≠ Some Dir).
      by rewrite Hfree.
    - intros Heq. assert (fs w !! p = None) by (rewrite Heq; exact Hfree).
      congruence. }
  assert (Hdone : move_to_sent_folder p w =
    (Ok tt, set_fs (λ m, <["Sent/" +:+ sent_name (Path.basename p) date rest ext n
                           := File artifact]> (delete p m)) w))
    by (etrans; [exact Hmove|exact Hren]).
  clear Hmove Hren.
  exists n. simpl. split_and!; try done.
  intros q Hq Hsome. rewrite Hdone. simpl.
  rewrite lookup_insert_ne by (intros <-; rewrite Hfree in Hsome; by destruct Hsome).
  by rewrite lookup_delete_ne.
Qed.

(** * Running the script, step by step *)

Module RunFacts.
Import StrFacts PathFacts.

Lemma ensure_dir_lookup name w k v :
  fs w !! k = Some v → fs (ensure_dir name w) !! k = Some v.
Proof.
  intros H. simpl. case_bool_decide as Hex; [done|].
  rewrite lookup_insert_ne; [done|]. intros ->. apply Hex. by rewrite H.
Qed.

Lemma ensure_dir_present name w : is_Some (fs (ensure_dir name w) !! name).
Proof. simpl. case_bool_decide; [done|]. by rewrite lookup_insert_eq. Qed.

Lemma ensure_dir_other name w k :
  k ≠ name → fs (ensure_dir name w) !! k = fs w !! k.
Proof. intros H. simpl. case_bool_decide; [done|]. by rewrite lookup_insert_ne. Qed.

(** Lines 63-64 and 111-112, followed by [k]. *)
Lemma ensure_dir_then {A} (k : M A) name w :
  Path.parent name = "" →
  (do b <- Os.path_exists name;
   ((if b : bool then ret tt else Os.makedirs name) >> k)) w
  = k (ensure_dir name w).
Proof.
  intros Hp. unfold bind, Os.path_exists, ensure_dir, set_fs.
  case_bool_decide as Hex; [by destruct w|].
  unfold Os.makedirs, bind, Os.check_parent. rewrite Hp. simpl.
  destruct (fs w !! name) eqn:E; [|done]. exfalso. apply Hex. eauto.
Qed.

(** Lines 76-78: one session, whatever the network does. *)
Lemma smtp_session user pw msg w :
  with_ (Smtp.connect_ssl "smtp.gmail.com" 465) Smtp.quit
    (λ _, Smtp.login user pw >> Smtp.send_message msg) w
  = (match session_error (Smtp.outcome w) with Some e => Raise e | None => Ok tt end,
     after_session user pw msg w).
Proof.
  destruct w as [f o wi n h].
  unfold with_, bind, after_session, Smtp.connect_ssl, Smtp.login, Smtp.send_message,
    Smtp.quit, Smtp.outcome, pop_net, add_wire, ret, raise.
  destruct n as [|[] n]; simpl; by rewrite <- ?(assoc_L (++)).
Qed.

(** Lines 51-79 once the artifact is known to be there. *)
Lemma send_email_run sender pw rcpt path body d w :
  fs w !! path = Some (File d) →
  send_email sender pw rcpt path body w =
    let msg := pay_stub_message sender rcpt (default "" body) (Path.basename path) d in
    let w3 := after_session sender pw msg (ensure_dir "Sent" w) in
    match session_error (Smtp.outcome w) with
    | Some e => (Raise e, w3)
    | None => move_to_sent_folder path w3
    end.
Proof.
  intros Hfile. unfold send_email.
  rewrite (ensure_dir_then _ "Sent" w) by done.
  unfold bind at 1, Os.read_binary at 1.
  rewrite (ensure_dir_lookup _ _ _ _ Hfile).
  unfold bind at 1. rewrite smtp_session.
  change (Smtp.outcome (ensure_dir "Sent" w)) with (Smtp.outcome w).
  by destruct (Smtp.outcome w).
Qed.

Lemma local_no_slash l : Str.all is_local l = true → Str.mem "/" l = false.
Proof.
  induction l as [|a l IH]; [done|]. simpl. intros [Ha Hl]%andb_prop.
  rewrite IH by done. rewrite orb_false_r.
  apply bool_decide_eq_false_2. by intros ->.
Qed.

Section Artifact.
Variables date ident : string.
Hypothesis Hdate : Str.mem "/" date = false.
Hypothesis Hident : Str.mem "/" ident = false.

Local Abbreviation path := (artifact_path date ident).

Lemma artifact_no_slash : Str.mem "/" path = false.
Proof. unfold artifact_path. by rewrite !mem_app, Hdate, Hident. Qed.

Lemma no_slash_basename x : Str.mem "/" x = false → Path.basename x = x.
Proof.
  intros H. unfold Path.basename. pose proof (rfind_ge "/" x).
  apply rfind_none in H. by replace (Str.rfind "/" x) with (-1) by lia.
Qed.

Lemma no_slash_parent x : Str.mem "/" x = false → Path.parent x = "".
Proof.
  intros H. unfold Path.parent. pose proof (rfind_ge "/" x).
  apply rfind_none in H. replace (Str.rfind "/" x) with (-1) by lia.
  by destruct x.
Qed.

Lemma artifact_splitext : Path.splitext path = (date +:+ " - " +:+ ident, ".pdf").
Proof.
  pose proof artifact_no_slash as Hns. unfold Path.splitext.
  pose proof (rfind_ge "/" path). apply rfind_none in Hns.
  replace (Str.rfind "/" path) with (-1) by lia.
  assert (Hdot : Str.rfind "." path = Z.of_nat (String.length (date +:+ " - " +:+ ident))).
  { unfold artifact_path.
    replace (date +:+ " - " +:+ ident +:+ ".pdf")
      with ((date +:+ " - " +:+ ident) +:+ String "." "pdf") by (by rewrite !app_assoc).
    by apply rfind_last. }
  rewrite Hdot. unfold Str.slice_to, Str.slice_from. rewrite Nat2Z.id.
  assert (Hpath : path = (date +:+ " - " +:+ ident) +:+ ".pdf")
    by (unfold artifact_path; by rewrite !app_assoc).
  rewrite Hpath, take_app, drop_app.
  destruct (Z.ltb_spec (-1) (Z.of_nat (String.length (date +:+ " - " +:+ ident)))); [|lia].
  simpl Str.drop. rewrite !all_app. simpl. by rewrite andb_false_r.
Qed.

Lemma artifact_not_dir_name name : Str.mem "." name = false → path ≠ name.
Proof.
  intros Hn Heq. rewrite <- Heq in Hn. unfold artifact_path in Hn.
  rewrite !mem_app in Hn. simpl in Hn. by rewrite !orb_true_r in Hn.
Qed.

End Artifact.
End RunFacts.

(** * One page of the loop *)

Module PageFacts.
Import StrFacts PathFacts RunFacts.

Lemma extract_inv domain text email ident :
  extract (configured domain) text = Some (email, ident) →
  ident ≠ "" ∧ Str.all is_local ident = true ∧
  email = ident +:+ "@" +:+ domain +:+ ".com" ∧
  ∃ before after, text = before +:+ email +:+ after.
Proof.
  unfold extract, Re.search.
  pose proof (ReFacts.search_from_spec (email_pattern (configured domain)) 0 text) as H.
  destruct (Re.search_from _ 0 text) as [[st g0 g1]|]; [|done]. simpl in *.
  destruct H as (pre & s1 & -> & _ & Hat & _).
  apply ReFacts.match_at_inv in Hat as (l & rest & -> & Hne & Hall & -> & ->).
  simpl. intros [= <- <-]. split_and!; try done.
  exists pre, rest. by rewrite !app_assoc.
Qed.

Lemma extract_None domain text :
  (∀ before a after, text = before +:+ a +:+ after → ¬ is_address domain a) →
  extract (configured domain) text = None.
Proof.
  intros Hno. destruct (extract (configured domain) text) as [[email ident]|] eqn:E; [|done].
  apply extract_inv in E as (Hne & Hall & -> & before & after & ->).
  exfalso. eapply Hno; [done|]. by exists ident.
Qed.

Lemma extract_None_inv domain text :
  extract (configured domain) text = None →
  ∀ before a after, text = before +:+ a +:+ after → ¬ is_address domain a.
Proof.
  unfold extract, Re.search.
  pose proof (ReFacts.search_from_spec (email_pattern (configured domain)) 0 text) as H.
  destruct (Re.search_from _ 0 text) as [m|]; [done|]. intros _.
  intros before a after Heq (l & Hne & Hall & ->).
  rewrite !app_assoc in Heq. specialize (H before _ Heq).
  by rewrite (ReFacts.match_at_address domain l after Hne Hall) in H.
Qed.

Lemma split_page_ok doc n pg path w :
  doc !! n = Some pg → copyable pg = true →
  Path.parent path = "" → fs w !! path ≠ Some Dir →
  split_page doc n path w = (Ok tt, after_split pg path w).
Proof.
  intros Hdoc Hcopy Hparent Hnd.
  unfold split_page, bind, Fitz.open_new, Fitz.insert_pdf. rewrite Hdoc, Hcopy.
  unfold ret, Fitz.save, Os.check_parent. rewrite Hparent. simpl.
  destruct (fs w !! path) as [[]|] eqn:E; done.
Qed.

(** A failed split leaves everything but the handle log as it was. *)
Lemma split_page_raises doc n path w e w1 :
  split_page doc n path w = (Raise e, w1) →
  w1 = add_handle (Opened Stub) w.
Proof.
  unfold split_page, bind, Fitz.open_new, Fitz.insert_pdf, Fitz.save, Fitz.close, ret, raise.
  destruct (doc !! n) as [pg|]; [destruct (copyable pg)|]; simpl;
    repeat case_match; intros ?; by simplify_eq.
Qed.

Lemma move_to_failed_ok path d w :
  Str.mem "/" path = false →
  fs w !! path = Some (File d) →
  fs w !! "Failed to Send" = Some Dir →
  fs w !! ("Failed to Send/" +:+ path) ≠ Some Dir →
  move_to_failed_send_folder path w =
    (Ok tt, set_fs (λ m, <["Failed to Send/" +:+ path := File d]> (delete path m)) w).
Proof.
  intros Hns Hfile Hdir Hnd. unfold move_to_failed_send_folder.
  rewrite join_plain by done.
  apply (SentFacts.rename_into w path "Failed to Send"); try done.
  intros Heq. apply (f_equal (Str.mem "/")) in Heq. rewrite Hns in Heq.
  by rewrite mem_app in Heq.
Qed.

Section Page.
Variables (domain date sender pw body : string) (doc : list page) (n : nat) (pg : page).
Variables (email ident : string).
Hypothesis Hmatch : extract (configured domain) (page_text pg) = Some (email, ident).

Local Abbreviation path := (artifact_path date ident).
Local Abbreviation page_step :=
  (process_page (configured domain) date sender pw body doc n pg).

Lemma process_page_split_fails w e w1 :
  split_page doc n path w = (Raise e, w1) → page_step w = (Raise e, w1).
Proof.
  intros H. unfold process_page. rewrite Hmatch. unfold bind at 1.
  fold (artifact_path date ident). by rewrite H.
Qed.

Lemma process_page_after_split w w1 :
  split_page doc n path w = (Ok tt, w1) →
  page_step w =
    match send_email sender pw email path (Some body) w1 with
    | (Ok _, w3) => (Ok tt, add_line (SentTo email) w3)
    | (Raise e, w3) => move_to_failed_send_folder path (add_line (FailedTo email e) w3)
    | (Diverge, w3) => (Diverge, w3)
    end.
Proof.
  intros H. unfold process_page. rewrite Hmatch. unfold bind at 1.
  fold (artifact_path date ident). rewrite H.
  unfold try_except, bind, print.
  by destruct (send_email sender pw email path (Some body) w1) as [[[]|e|] w3].
Qed.

End Page.

Lemma for_pages_step dom date sender pw body doc n pg todo w :
  for_pages dom date sender pw body doc n (pg :: todo) w =
    match process_page dom date sender pw body doc n pg w with
    | (Ok _, w') => for_pages dom date sender pw body doc (S n) todo w'
    | (Raise e, w') => (Raise e, w')
    | (Diverge, w') => (Diverge, w')
    end.
Proof. reflexivity. Qed.

(** Lines 111-114: the run up to the loop, on a source that opens. *)
Lemma process_pay_stubs_opened dom date sender pw body pdf pages w :
  fs w !! pdf = Some (File (Pdf pages)) →
  process_pay_stubs dom date sender pw body pdf w
  = (for_pages dom date sender pw body pages 0 pages >> Fitz.close (Source pdf))
      (add_handle (Opened (Source pdf)) (ensure_dir "Failed to Send" w)).
Proof.
  intros Hpdf. unfold process_pay_stubs.
  rewrite (ensure_dir_then _ "Failed to Send" w) by done.
  unfold bind at 1. unfold Fitz.open.
  by rewrite (ensure_dir_lookup _ _ _ _ Hpdf).
Qed.

End PageFacts.

(** * Pages without an address *)


(** * Pages that cannot be split *)


(** * Pages whose [send_email] raises *)

Module HandlerFacts.
Import StrFacts PathFacts RunFacts PageFacts.

(** Nothing can be moved below a regular file. *)
Lemma rename_below_file w src dir x nd y :
  fs w !! src = Some nd → fs w !! dir = Some (File y) → dir ≠ "" →
  Str.mem "/" x = false →
  Os.rename src (dir +:+ "/" +:+ x) w = (Raise NotADirectoryError, w).
Proof.
  intros Hsrc Hdir Hne Hx. unfold Os.rename, Os.check_parent.
  rewrite Hsrc, parent_plain by done.
  rewrite bool_decide_eq_false_2 by done. by rewrite Hdir.
Qed.

Section Handler.
Variables (domain date sender pw body : string) (doc : list page) (n : nat) (pg : page).
Variables (email ident : string) (w : world).
Hypothesis Hdate : Str.mem "/" date = false.
Hypothesis Hmatch : extract (configured domain) (page_text pg) = Some (email, ident).
Hypothesis Hdoc : doc !! n = Some pg.
Hypothesis Hcopy : copyable pg = true.

Local Abbreviation path := (artifact_path date ident).
Local Abbreviation failed := ("Failed to Send/" +:+ artifact_path date ident).
Local Abbreviation w1 := (after_split pg (artifact_path date ident) w).

Hypothesis Hfree : fs w !! path ≠ Some Dir.

Lemma ident_no_slash : Str.mem "/" ident = false.
Proof. apply extract_inv in Hmatch as (_ & Hall & _). by apply local_no_slash. Qed.

Lemma path_no_slash : Str.mem "/" path = false.
Proof. apply artifact_no_slash; [done|apply ident_no_slash]. Qed.

Lemma split_done : split_page doc n path w = (Ok tt, w1).
Proof.
  apply split_page_ok; try done. apply no_slash_parent, path_no_slash.
Qed.

Lemma artifact_written : fs w1 !! path = Some (File (Pdf [pg])).
Proof. simpl. by rewrite lookup_insert_eq. Qed.

Lemma path_not_tracked name : Str.mem "." name = false → path ≠ name.
Proof. apply artifact_not_dir_name. Qed.

Lemma failed_not_path : failed ≠ path.
Proof.
  intros Heq. apply (f_equal (Str.mem "/")) in Heq.
  rewrite path_no_slash in Heq. by rewrite mem_app in Heq.
Qed.

(** The [except] branch: the artifact goes under [Failed to Send]. *)
Lemma handler_files_under_failed e w3 :
  send_email sender pw email path (Some body) w1 = (Raise e, w3) →
  fs w3 = fs (ensure_dir "Sent" w1) →
  fs w !! "Failed to Send" = Some Dir →
  fs w !! failed ≠ Some Dir →
  process_page (configured domain) date sender pw body doc n pg w =
    (Ok tt, set_fs (λ m, <[failed := File (Pdf [pg])]> (delete path m))
              (add_line (FailedTo email e) w3)).
Proof.
  intros Hsend Hfs Hdir Hnd.
  rewrite (process_page_after_split domain date sender pw body doc n pg email ident
             Hmatch w w1 split_done), Hsend.
  apply move_to_failed_ok; simpl; rewrite ?Hfs.
  - apply path_no_slash.
  - apply ensure_dir_lookup, artifact_written.
  - apply ensure_dir_lookup. simpl.
    rewrite lookup_insert_ne by (by apply path_not_tracked). done.
  - rewrite ensure_dir_other by (by intros [=]). simpl.
    by rewrite lookup_insert_ne by (apply not_eq_sym, failed_not_path).
Qed.

(** What the [except] branch leaves behind. *)
Lemma handler_result e w3 :
  fs w3 = fs (ensure_dir "Sent" w1) →
  let w' := set_fs (λ m, <[failed := File (Pdf [pg])]> (delete path m))
              (add_line (FailedTo email e) w3) in
  fs w' !! failed = Some (File (Pdf [pg])) ∧
  fs w' !! path = None ∧
  (∀ x, fs w' !! ("Sent/" +:+ x) = fs w !! ("Sent/" +:+ x)) ∧
  stdout w' = stdout w3 ++ [FailedTo email e].
Proof.
  intros Hfs. simpl. rewrite Hfs. split_and!.
  - by rewrite lookup_insert_eq.
  - rewrite lookup_insert_ne by apply failed_not_path. by rewrite lookup_delete_eq.
  - intros x. rewrite lookup_insert_ne by (by intros [=]).
    assert ("Sent/" +:+ x ≠ path) as Hne.
    { intros Heq. apply (f_equal (Str.mem "/")) in Heq. by rewrite path_no_slash in Heq. }
    rewrite lookup_delete_ne by done.
    rewrite ensure_dir_other by (by intros [=]). simpl.
    by rewrite lookup_insert_ne.
  - done.
Qed.

End Handler.
End HandlerFacts.

(** * Pages whose dispatch fails *)


(** * Pages that are sent but cannot be filed under [Sent] *)


(** * What the steps leave alone *)

Module Frame.

Create HintDb keeps.

Section Keeps.
Variable P : world → world → Prop.
Hypothesis P_refl : ∀ w, P w w.
Hypothesis P_trans : ∀ a b c, P a b → P b c → P a c.
Hypothesis P_fs : ∀ f w, P w (set_fs f w).
Hypothesis P_line : ∀ l w, P w (add_line l w).
Hypothesis P_wire : ∀ es w, P w (add_wire es w).
Hypothesis P_net : ∀ w, P w (pop_net w).
Hypothesis P_stub_open : ∀ w, P w (add_handle (Opened Stub) w).
Hypothesis P_stub_close : ∀ w, P w (add_handle (Closed Stub) w).

Lemma keeps_ret {A} (a : A) : keeps P (ret a).
Proof. intros w. apply P_refl. Qed.

Lemma keeps_raise {A} e : keeps P (@raise A e).
Proof. intros w. apply P_refl. Qed.

Lemma keeps_bind {A B} (m : M A) (f : A → M B) :
  keeps P m → (∀ a, keeps P (f a)) → keeps P (bind m f).
Proof.
  intros Hm Hf w. unfold bind. specialize (Hm w).
  destruct (m w) as [[a|e|] w']; simpl in *; [|done..].
  eapply P_trans; [exact Hm|apply Hf].
Qed.

Lemma keeps_try {A} (m : M A) (h : exn → M A) :
  keeps P m → (∀ e, keeps P (h e)) → keeps P (try_except m h).
Proof.
  intros Hm Hh w. unfold try_except. specialize (Hm w).
  destruct (m w) as [[a|e|] w']; simpl in *; [done| |done].
  eapply P_trans; [exact Hm|apply Hh].
Qed.

Lemma keeps_with {R A} (enter : M R) (leave : R → M unit) (body : R → M A) :
  keeps P enter → (∀ r, keeps P (leave r)) → (∀ r, keeps P (body r)) →
  keeps P (with_ enter leave body).
Proof.
  intros He Hl Hb. unfold with_. apply keeps_bind; [done|]. intros r w.
  specialize (Hb r w). destruct (body r w) as [[a|e|] w']; simpl in *; [| |done].
  - eapply P_trans; [exact Hb|]. apply keeps_bind; [apply Hl|intros; apply keeps_ret].
  - eapply P_trans; [exact Hb|]. apply keeps_bind; [apply Hl|intros; apply keeps_raise].
Qed.

Lemma keeps_if {A} (b : bool) (m1 m2 : M A) :
  keeps P m1 → keeps P m2 → keeps P (if b then m1 else m2).
Proof. by destruct b. Qed.

Lemma keeps_path_exists p : keeps P (Os.path_exists p).
Proof. intros w. apply P_refl. Qed.

Lemma keeps_check_parent p : keeps P (Os.check_parent p).
Proof. intros w. unfold Os.check_parent. repeat case_match; apply P_refl. Qed.

Lemma keeps_makedirs p : keeps P (Os.makedirs p).
Proof.
  unfold Os.makedirs. apply keeps_bind; [apply keeps_check_parent|].
  intros _ w. case_match; [apply P_refl|apply P_fs].
Qed.

Lemma keeps_rename src dst : keeps P (Os.rename src dst).
Proof.
  intros w. unfold Os.rename.
  repeat case_match; simpl; first [apply P_refl | apply P_fs].
Qed.

Lemma keeps_read_binary p : keeps P (Os.read_binary p).
Proof. intros w. unfold Os.read_binary. repeat case_match; apply P_refl. Qed.

Lemma keeps_unpack2 xs : keeps P (unpack2 xs).
Proof. unfold unpack2. repeat case_match; first [apply keeps_ret | apply keeps_raise]. Qed.

Lemma keeps_while_exists fuel d r e path c :
  keeps P (while_exists fuel d r e path c).
Proof.
  revert path c. induction fuel as [|fuel IH]; intros path c; [intros w; apply P_refl|].
  cbn [while_exists]. apply keeps_bind; [apply keeps_path_exists|].
  intros [|]; [apply IH|apply keeps_ret].
Qed.

Lemma keeps_move_to_sent_folder p : keeps P (move_to_sent_folder p).
Proof.
  unfold move_to_sent_folder. destruct (Path.splitext _) as [base ext].
  apply keeps_bind; [apply keeps_unpack2|]. intros [d r].
  apply keeps_bind; [|intros; apply keeps_rename].
  intros w. apply keeps_while_exists.
Qed.

Lemma keeps_move_to_failed p : keeps P (move_to_failed_send_folder p).
Proof. apply keeps_rename. Qed.


Local Hint Resolve keeps_ret keeps_raise keeps_bind keeps_try keeps_with keeps_if
  keeps_path_exists keeps_makedirs keeps_rename keeps_read_binary
  keeps_move_to_sent_folder keeps_move_to_failed : keeps.

Lemma keeps_print l : keeps P (print l).
Proof. intros w. apply P_line. Qed.

Lemma keeps_smtp_connect host port : keeps P (Smtp.connect_ssl host port).
Proof.
  intros w. unfold Smtp.connect_ssl. case_match; simpl; try apply P_wire.
  eapply P_trans; [apply P_wire|apply P_net].
Qed.

Lemma keeps_smtp_quit u : keeps P (Smtp.quit u).
Proof. intros w. simpl. eapply P_trans; [apply P_wire|apply P_net]. Qed.

Lemma keeps_smtp_login user pw : keeps P (Smtp.login user pw).
Proof. intros w. unfold Smtp.login. case_match; apply P_wire. Qed.

Lemma keeps_smtp_send msg : keeps P (Smtp.send_message msg).
Proof. intros w. unfold Smtp.send_message. case_match; apply P_wire. Qed.

Local Hint Resolve keeps_print keeps_smtp_connect keeps_smtp_quit keeps_smtp_login
  keeps_smtp_send : keeps.

Lemma keeps_send_email sender pw rcpt path body :
  keeps P (send_email sender pw rcpt path body).
Proof. unfold send_email. eauto 20 with keeps. Qed.

Lemma keeps_split_page doc n path : keeps P (split_page doc n path).
Proof.
  unfold split_page. apply keeps_bind; [intros w; apply P_stub_open|].
  intros stub. apply keeps_bind.
  { unfold Fitz.insert_pdf. repeat case_match; eauto with keeps. }
  intros stub'. apply keeps_bind; [|intros; intros w; apply P_stub_close].
  intros w. unfold Fitz.save. repeat case_match; simpl; first [apply P_refl|apply P_fs].
Qed.

Lemma keeps_process_page dom date sender pw body doc n pg :
  keeps P (process_page dom date sender pw body doc n pg).
Proof.
  unfold process_page. destruct (extract dom (page_text pg)) as [[email ident]|].
  - apply keeps_bind; [apply keeps_split_page|]. intros _.
    apply keeps_try; eauto 10 using keeps_send_email with keeps.
  - apply keeps_print.
Qed.

Lemma keeps_for_pages dom date sender pw body doc n todo :
  keeps P (for_pages dom date sender pw body doc n todo).
Proof.
  revert n. induction todo as [|pg todo IH]; intros n; simpl.
  - by apply keeps_ret.
  - apply keeps_bind; [apply keeps_process_page|]. intros _. apply IH.
Qed.

End Keeps.

Lemma same_wire_move_to_sent_folder p w : wire (move_to_sent_folder p w).2 = wire w.
Proof.
  apply (keeps_move_to_sent_folder same_wire); unfold same_wire; [done| |done].
  intros a b c Hab Hbc. by rewrite Hbc.
Qed.

Lemma stub_events_only_refl w : stub_events_only w w.
Proof. exists []. by rewrite app_nil_r. Qed.

Lemma stub_events_only_trans a b c :
  stub_events_only a b → stub_events_only b c → stub_events_only a c.
Proof.
  intros (e1 & H1 & F1) (e2 & H2 & F2). exists (e1 ++ e2).
  rewrite H2, H1, (assoc_L (++)). split; [done|]. by apply Forall_app.
Qed.

Lemma stub_events_only_for_pages dom date sender pw body doc n todo w :
  stub_events_only w (for_pages dom date sender pw body doc n todo w).2.
Proof.
  apply (keeps_for_pages stub_events_only);
    [apply stub_events_only_refl | apply stub_events_only_trans | ..];
    intros; unfold stub_events_only; simpl;
    first [ exists []; split; [by rewrite app_nil_r | constructor]
          | eexists [_]; split; [reflexivity|];
            constructor; [unfold stub_event; auto | constructor] ].
Qed.

End Frame.

(** * The script always comes back *)

Module Total.

Lemma total_ret {A} (a : A) : total (ret a).
Proof. by intros w. Qed.

Lemma total_raise {A} e : total (@raise A e).
Proof. by intros w. Qed.

Lemma total_bind {A B} (m : M A) (f : A → M B) :
  total m → (∀ a, total (f a)) → total (bind m f).
Proof.
  intros Hm Hf w. unfold bind. specialize (Hm w).
  destruct (m w) as [[a|e|] w']; simpl in *; [apply Hf|done..].
Qed.

Lemma total_try {A} (m : M A) (h : exn → M A) :
  total m → (∀ e, total (h e)) → total (try_except m h).
Proof.
  intros Hm Hh w. unfold try_except. specialize (Hm w).
  destruct (m w) as [[a|e|] w']; simpl in *; [done|apply Hh|done].
Qed.

Lemma total_with {R A} (enter : M R) (leave : R → M unit) (body : R → M A) :
  total enter → (∀ r, total (leave r)) → (∀ r, total (body r)) →
  total (with_ enter leave body).
Proof.
  intros He Hl Hb. unfold with_. apply total_bind; [done|]. intros r w.
  specialize (Hb r w). destruct (body r w) as [[a|e|] w']; simpl in *; [| |done].
  - apply total_bind; [apply Hl|intros; apply total_ret].
  - apply total_bind; [apply Hl|intros; apply total_raise].
Qed.

Lemma total_path_exists p : total (Os.path_exists p).
Proof. by intros w. Qed.

Lemma total_makedirs p : total (Os.makedirs p).
Proof.
  unfold Os.makedirs. apply total_bind.
  - intros w. unfold Os.check_parent. by repeat case_match.
  - intros _ w. by case_match.
Qed.

Lemma total_rename src dst : total (Os.rename src dst).
Proof.
  intros w. unfold Os.rename, Os.check_parent.
  repeat case_match; simplify_eq; done.
Qed.

Lemma total_read_binary p : total (Os.read_binary p).
Proof. intros w. unfold Os.read_binary. by repeat case_match. Qed.

Lemma total_move_to_sent_folder p : total (move_to_sent_folder p).
Proof.
  intros w.
  destruct (Path.splitext (Path.basename p)) as [base ext] eqn:Hsplit.
  destruct (Str.partition " - " base) as [[d r]|] eqn:Hpart.
  - apply StrFacts.partition_Some in Hpart as ->.
    destruct (SentFacts.move_to_sent_folder_rename w p d r ext Hsplit)
      as (n & _ & _ & _ & ->).
    apply total_rename.
  - unfold move_to_sent_folder. rewrite Hsplit. unfold Str.split1. by rewrite Hpart.
Qed.

Lemma total_send_email sender pw rcpt path body :
  total (send_email sender pw rcpt path body).
Proof.
  unfold send_email.
  apply total_bind; [apply total_path_exists|]. intros b.
  apply total_bind; [destruct b; [apply total_ret|apply total_makedirs]|]. intros _.
  apply total_bind; [apply total_read_binary|]. intros d.
  apply total_bind; [|intros; apply total_move_to_sent_folder].
  apply total_with.
  - intros w. unfold Smtp.connect_ssl. by case_match.
  - by intros r w.
  - intros _. apply total_bind; [|intros _]; intros w;
      unfold Smtp.login, Smtp.send_message; by case_match.
Qed.

Lemma total_split_page doc n path : total (split_page doc n path).
Proof.
  unfold split_page. apply total_bind; [by intros w|]. intros stub.
  apply total_bind.
  { unfold Fitz.insert_pdf. repeat case_match; by intros w. }
  intros stub'. apply total_bind; [|by intros _ w].
  intros w. unfold Fitz.save, Os.check_parent. by repeat case_match.
Qed.

Lemma total_process_page dom date sender pw body doc n pg :
  total (process_page dom date sender pw body doc n pg).
Proof.
  unfold process_page. destruct (extract dom (page_text pg)) as [[email ident]|].
  - apply total_bind; [apply total_split_page|]. intros _. apply total_try.
    + apply total_bind; [apply total_send_email|by intros _ w].
    + intros e. apply total_bind; [by intros w|]. intros _. apply total_rename.
  - by intros w.
Qed.

Lemma total_for_pages dom date sender pw body doc n todo :
  total (for_pages dom date sender pw body doc n todo).
Proof.
  revert n. induction todo as [|pg todo IH]; intros n; simpl.
  - apply total_ret.
  - apply total_bind; [apply total_process_page|]. intros _. apply IH.
Qed.

Lemma total_process_pay_stubs dom date sender pw body pdf :
  total (process_pay_stubs dom date sender pw body pdf).
Proof.
  unfold process_pay_stubs.
  apply total_bind; [apply total_path_exists|]. intros b.
  apply total_bind; [destruct b; [apply total_ret|apply total_makedirs]|]. intros _.
  apply total_bind.
  { intros w. unfold Fitz.open. by repeat case_match. }
  intros doc. apply total_bind; [apply total_for_pages|by intros _ w].
Qed.

End Total.

(** * The source document handle *)


(** * The message and its session *)

(** C8: a call of [send_email] on an artifact that is there opens exactly
    one session, to [smtp.gmail.com] on port 465 with TLS from the start,
    and logs in with the credentials it was given.  Any message it hands to
    the server has the subject [Pay Stub], the credential address as sender,
    the receiver as its only recipient, the given body (empty by default) and
    one attachment, [application/pdf], named after the artifact's base name
    and holding the artifact.  When the network plays along the traffic is
    exactly: connect, login, this message, quit. *)
Theorem send_email_one_session
    (sender pw rcpt path : string) (body : option string) (d : data) (w : world) :
  fs w !! path = Some (File d) →
  let msg :=
    Message [("Subject", "Pay Stub"); ("From", sender); ("To", rcpt)]
      (default "" body)
      [Attachment "application" "pdf" (Path.basename path) d] in
  ∃ evs, wire (send_email sender pw rcpt path body w).2 = wire w ++ evs ∧
    sessions_opened evs = 1%nat ∧
    (∀ e, e ∈ evs → opens_session e = true →
       e = Connected "smtp.gmail.com" 465 ImplicitTLS
       ∨ e = ConnectFailed "smtp.gmail.com" 465 ImplicitTLS) ∧
    (∀ u p, LoggedIn u p ∈ evs ∨ LoginRejected u p ∈ evs → u = sender ∧ p = pw) ∧
    (∀ m, Accepted m ∈ evs ∨ Rejected m ∈ evs → m = msg) ∧
    (Smtp.outcome w = NetOk →
       evs = [Connected "smtp.gmail.com" 465 ImplicitTLS; LoggedIn sender pw;
              Accepted msg; Quit]).
Proof.
  intros Hfile msg.
  exists (session_events sender pw msg (Smtp.outcome w)).
  split.
  - rewrite (RunFacts.send_email_run _ _ _ _ _ d) by done. simpl.
    destruct (Smtp.outcome w) eqn:Ho; simpl; rewrite ?Frame.same_wire_move_to_sent_folder;
      simpl; unfold Smtp.outcome in *; simpl; by rewrite Ho.
  - destruct (Smtp.outcome w); simpl; split_and!; try done.
    all: lazymatch goal with
         | |- ∀ e, e ∈ _ → opens_session e = true → _ => intros e He Hop
         | |- ∀ u p, _ ∨ _ → _ => intros u p [He|He]
         | |- ∀ m, _ ∨ _ → _ => intros m [He|He]
         end.
    all: repeat (apply elem_of_cons in He as [He|He]);
           try (by apply elem_of_nil in He); simplify_eq; auto.
Qed.

(** * The tracked directories *)

(** C9 (amended): [Failed to Send] is created, when it is not there, at the
    start of every run, before the source document is opened and whether or
    not a page fails later; a run in which no page names a recipient ends
    with [Failed to Send] in place and with [Sent] as it was.  [Sent] is
    created, when it is not there, at the start of every dispatch, before the
    message is sent: it is there after a dispatch that failed. *)
Theorem tracked_directories_created_up_front
    (dom : Re.regex) (date sender pw body pdf : string) (pages : list page) (w : world)
    (rcpt path : string) (mbody : option string) (d : data) (wd : world) (e : exn) :
  fs w !! pdf = Some (File (Pdf pages)) →
  fs wd !! path = Some (File d) →
  session_error (Smtp.outcome wd) = Some e →
  process_pay_stubs dom date sender pw body pdf w
  = (for_pages dom date sender pw body pages 0 pages >> Fitz.close (Source pdf))
      (add_handle (Opened (Source pdf)) (ensure_dir "Failed to Send" w)) ∧
  is_Some (fs (ensure_dir "Failed to Send" w) !! "Failed to Send") ∧
  (Forall (λ pg, extract dom (page_text pg) = None) pages →
     ∃ w', process_pay_stubs dom date sender pw body pdf w = (Ok tt, w') ∧
       fs w' = fs (ensure_dir "Failed to Send" w) ∧
       fs w' !! "Sent" = fs w !! "Sent") ∧
  ∃ w3, send_email sender pw rcpt path mbody wd = (Raise e, w3) ∧
    fs w3 = fs (ensure_dir "Sent" wd) ∧ is_Some (fs w3 !! "Sent").
Proof.
  intros Hpdf Hfile Herr.
  assert (Hrun : process_pay_stubs dom date sender pw body pdf w
    = (for_pages dom date sender pw body pages 0 pages >> Fitz.close (Source pdf))
        (add_handle (Opened (Source pdf)) (ensure_dir "Failed to Send" w))).
  { by apply PageFacts.process_pay_stubs_opened. }
  split_and!; [done|apply RunFacts.ensure_dir_present| |].
  - intros Hnone. rewrite Hrun.
    set (w1 := add_handle (Opened (Source pdf)) (ensure_dir "Failed to Send" w)).
    assert (Hloop : ∀ todo n w0,
      Forall (λ pg, extract dom (page_text pg) = None) todo →
      ∃ w2, for_pages dom date sender pw body pages n todo w0 = (Ok tt, w2)
            ∧ fs w2 = fs w0).
    { induction todo as [|pg todo IH]; intros n w0 Hall; [by exists w0|].
      apply Forall_cons in Hall as [Hpg Hall].
      rewrite PageFacts.for_pages_step. unfold process_page. rewrite Hpg.
      unfold print.
      destruct (IH (S n) (add_line (NoEmailOnPage (n + 1)) w0) Hall) as (w2 & -> & Hfs).
      by exists w2. }
    destruct (Hloop pages 0%nat w1 Hnone) as (w2 & Hfor & Hfs).
    exists (add_handle (Closed (Source pdf)) w2). unfold bind. rewrite Hfor.
    split_and!; [done|exact Hfs|].
    change (fs w2 !! "Sent" = fs w !! "Sent"). rewrite Hfs.
    by apply (RunFacts.ensure_dir_other "Failed to Send" w).
  - rewrite (RunFacts.send_email_run _ _ _ _ _ d) by done. simpl. rewrite Herr.
    eexists. split_and!; [done|done|]. apply RunFacts.ensure_dir_present.
Qed.

(** * Filing under [Failed to Send] *)

(** C10: the failed path does one [os.rename] onto [Failed to Send] joined
    with the artifact's path as it is, directories included, not with its
    base name.  It never looks whether the target exists: a regular file of
    that name under [Failed to Send] is replaced by the artifact, and no
    other name is tried. *)
Theorem move_to_failed_replaces
    (path : string) (artifact old : data) (w : world) :
  Str.strip_prefix "/" path = None →
  fs w !! path = Some (File artifact) →
  fs w !! Path.parent ("Failed to Send/" +:+ path) = Some Dir →
  fs w !! ("Failed to Send/" +:+ path) = Some (File old) →
  Path.join "Failed to Send" path = "Failed to Send/" +:+ path ∧
  move_to_failed_send_folder path w =
    (Ok tt, set_fs (λ m, <["Failed to Send/" +:+ path := File artifact]> (delete path m)) w).
Proof.
  intros Hrel Hfile Hdir Hold.
  assert (Hjoin : Path.join "Failed to Send" path = "Failed to Send/" +:+ path).
  { unfold Path.join. by rewrite Hrel. }
  split; [done|].
  unfold move_to_failed_send_folder. rewrite Hjoin.
  unfold Os.rename, Os.check_parent. rewrite Hfile, Hdir, Hold.
  case_bool_decide as Hp; case_bool_decide as Heq; try done.
  all: exfalso; apply (f_equal String.length) in Heq;
    rewrite StrFacts.length_app in Heq; simpl in Heq; lia.
Qed.

(** * The claims on concrete runs *)

Section Concrete.
Import Scenario.

(** The pattern as shipped takes [[domain]] for a character class: one of
    the letters d, o, m, a, i, n stands where the domain should. *)
Example shipped_pattern_matches_one_letter :
  extract placeholder_domain "to bob@d.com" = Some ("bob@d.com", "bob")
  ∧ extract placeholder_domain "to bob@domain.com" = None.
Proof. split; vm_compute; reflexivity. Qed.

(** An address under a literal domain, the one of section 8 of the
    specification or any other, is not found by the script as shipped. *)
Example literal_domain_is_not_matched :
  is_address "domain" "bob@domain.com"
  ∧ extract placeholder_domain "Pay stub for bob@domain.com" = None
  ∧ is_address "acme" "bob@acme.com"
  ∧ extract placeholder_domain "Pay stub for bob@acme.com" = None
  ∧ extract placeholder_domain "Pay stub for amy@n.com" = Some ("amy@n.com", "amy").
Proof.
  split_and!; try (vm_compute; reflexivity); by exists "bob".
Qed.

Example extract_takes_first_address :
  extract (configured "acme") "cc: x@other.com, bob.smith@acme.com, al@acme.com"
  = Some ("bob.smith@acme.com", "bob.smith").
Proof. vm_compute. reflexivity. Qed.

(** [main] hands over a date that is a file name. *)
Example formatted_date_is_a_file_name :
  formatted_date "01/15/2024" = "01-15-2024"
  ∧ ∀ d, Str.mem "/" (formatted_date d) = false.
Proof. split; [reflexivity|apply StrFacts.replace_no_slash]. Qed.

(** A directory moves with what it holds. *)
Example rename_moves_directory :
  let w := start [] [("old", Dir); ("old/a.pdf", File (Pdf [alice]))] [] in
  let r := Os.rename "old" "new" w in
  r.1 = Ok tt
  ∧ fs r.2 !! "new" = Some Dir
  ∧ fs r.2 !! "new/a.pdf" = Some (File (Pdf [alice]))
  ∧ fs r.2 !! "old" = None ∧ fs r.2 !! "old/a.pdf" = None.
Proof. vm_compute. repeat split; reflexivity. Qed.

(** Section 8 of the specification, property 6: three pages, the first
    sent, the second without address, the third rejected by the server. *)
Example end_to_end :
  let r := run (start [alice; blank; bob] [] [NetOk; NetSendFails]) in
  r.1 = Ok tt
  ∧ fs r.2 !! ("Sent/" +:+ alice_pdf) = Some (File (Pdf [alice]))
  ∧ fs r.2 !! ("Failed to Send/" +:+ bob_pdf) = Some (File (Pdf [bob]))
  ∧ fs r.2 !! alice_pdf = None ∧ fs r.2 !! bob_pdf = None
  ∧ stdout r.2 = [SentTo "alice@acme.com"; NoEmailOnPage 2;
                  FailedTo "bob@acme.com" SMTPDataError].
Proof. vm_compute. repeat split; reflexivity. Qed.

(** Section 8, property 4: the third artifact of the same name gets [- 2]. *)
Example third_collision :
  let w := start [] [("Sent", Dir); (alice_pdf, File (Pdf [alice]));
                     ("Sent/" +:+ alice_pdf, File (Pdf [blank]));
                     ("Sent/01-15-2024 - alice - 1.pdf", File (Pdf [blank]))] [] in
  let r := move_to_sent_folder alice_pdf w in
  r.1 = Ok tt
  ∧ fs r.2 !! "Sent/01-15-2024 - alice - 2.pdf" = Some (File (Pdf [alice]))
  ∧ fs r.2 !! ("Sent/" +:+ alice_pdf) = Some (File (Pdf [blank]))
  ∧ fs r.2 !! "Sent/01-15-2024 - alice - 1.pdf" = Some (File (Pdf [blank])).
Proof. vm_compute. repeat split; reflexivity. Qed.




(** C9, as stated, fails.  A run in which no page fails creates
    [Failed to Send]; and a run whose only dispatch fails creates [Sent]
    although nothing is ever filed into it. *)
Lemma directories_created_without_use :
  let w := start [alice] [] [NetOk] in
  let r := run w in
  let w' := start [alice] [] [NetConnectFails] in
  let r' := run w' in
  (fs w !! "Failed to Send" = None ∧ r.1 = Ok tt
   ∧ stdout r.2 = [SentTo "alice@acme.com"]
   ∧ fs r.2 !! "Failed to Send" = Some Dir)
  ∧ (fs w' !! "Sent" = None ∧ r'.1 = Ok tt
     ∧ stdout r'.2 = [FailedTo "alice@acme.com" SMTPConnectError]
     ∧ fs r'.2 !! "Sent" = Some Dir
     ∧ fs r'.2 !! ("Sent/" +:+ alice_pdf) = None).
Proof. vm_compute. repeat split; reflexivity. Qed.

End Concrete.

(** * The theorems at work on the scenarios *)

Section Witnesses.
Import Scenario.

Lemma move_to_sent_folder_spec_witness :
  let w := start [] [("Sent", Dir); (alice_pdf, File (Pdf [alice]));
                     ("Sent/" +:+ alice_pdf, File (Pdf [blank]))] [] in
  Path.splitext (Path.basename alice_pdf) = ("01-15-2024" +:+ " - " +:+ "alice", ".pdf")
  ∧ fs w !! alice_pdf = Some (File (Pdf [alice]))
  ∧ fs w !! "Sent" = Some Dir
  ∧ ∃ n : nat,
      let name := sent_name (Path.basename alice_pdf) "01-15-2024" "alice" ".pdf" in
      (∀ m, (m < n)%nat → is_Some (fs w !! ("Sent/" +:+ name m))) ∧
      fs w !! ("Sent/" +:+ name n) = None ∧
      move_to_sent_folder alice_pdf w =
        (Ok tt, set_fs (λ m, <["Sent/" +:+ name n := File (Pdf [alice])]>
                               (delete alice_pdf m)) w) ∧
      ∀ q, q ≠ alice_pdf → is_Some (fs w !! q) →
        fs (move_to_sent_folder alice_pdf w).2 !! q = fs w !! q.
Proof.
  intros w. split_and!; [vm_compute; reflexivity..|].
  apply (move_to_sent_folder_spec w alice_pdf "01-15-2024" "alice" ".pdf" (Pdf [alice]));
    vm_compute; reflexivity.
Defined.






Lemma send_email_one_session_witness :
  let w := start [] [(alice_pdf, File (Pdf [alice]))] [NetOk] in
  let msg :=
    Message [("Subject", "Pay Stub"); ("From", "me@gmail.com"); ("To", "alice@acme.com")]
      (default "" None)
      [Attachment "application" "pdf" (Path.basename alice_pdf) (Pdf [alice])] in
  fs w !! alice_pdf = Some (File (Pdf [alice]))
  ∧ ∃ evs,
      wire (send_email "me@gmail.com" "secret" "alice@acme.com" alice_pdf None w).2
        = wire w ++ evs ∧
      sessions_opened evs = 1%nat ∧
      (∀ e, e ∈ evs → opens_session e = true →
         e = Connected "smtp.gmail.com" 465 ImplicitTLS
         ∨ e = ConnectFailed "smtp.gmail.com" 465 ImplicitTLS) ∧
      (∀ u p, LoggedIn u p ∈ evs ∨ LoginRejected u p ∈ evs
         → u = "me@gmail.com" ∧ p = "secret") ∧
      (∀ m, Accepted m ∈ evs ∨ Rejected m ∈ evs → m = msg) ∧
      (Smtp.outcome w = NetOk →
         evs = [Connected "smtp.gmail.com" 465 ImplicitTLS;
                LoggedIn "me@gmail.com" "secret"; Accepted msg; Quit]).
Proof.
  intros w msg. split; [vm_compute; reflexivity|].
  apply (send_email_one_session "me@gmail.com" "secret" "alice@acme.com" alice_pdf None
           (Pdf [alice]) w).
  vm_compute. reflexivity.
Defined.

Lemma tracked_directories_created_up_front_witness :
  let w := start [blank] [] [] in
  let wd := start [] [(alice_pdf, File (Pdf [alice]))] [NetLoginFails] in
  fs w !! "in.pdf" = Some (File (Pdf [blank]))
  ∧ fs wd !! alice_pdf = Some (File (Pdf [alice]))
  ∧ session_error (Smtp.outcome wd) = Some SMTPAuthenticationError
  ∧ run w = (loop [blank] 0 [blank] >> Fitz.close (Source "in.pdf"))
              (add_handle (Opened (Source "in.pdf")) (ensure_dir "Failed to Send" w))
  ∧ is_Some (fs (ensure_dir "Failed to Send" w) !! "Failed to Send")
  ∧ (Forall (λ pg, extract (configured "acme") (page_text pg) = None) [blank] →
       ∃ w', run w = (Ok tt, w') ∧
         fs w' = fs (ensure_dir "Failed to Send" w) ∧
         fs w' !! "Sent" = fs w !! "Sent")
  ∧ ∃ w3, send_email "me@gmail.com" "secret" "alice@acme.com" alice_pdf None wd
          = (Raise SMTPAuthenticationError, w3) ∧
      fs w3 = fs (ensure_dir "Sent" wd) ∧ is_Some (fs w3 !! "Sent").
Proof.
  intros w wd. do 3 (split; [vm_compute; reflexivity|]).
  apply (tracked_directories_created_up_front (configured "acme") "01-15-2024"
           "me@gmail.com" "secret" "" "in.pdf" [blank] w "alice@acme.com" alice_pdf None
           (Pdf [alice]) wd SMTPAuthenticationError);
    vm_compute; reflexivity.
Defined.

Lemma move_to_failed_replaces_witness :
  let w := start [] [("Failed to Send", Dir); (bob_pdf, File (Pdf [bob]));
                     ("Failed to Send/" +:+ bob_pdf, File (Pdf [blank]))] [] in
  Str.strip_prefix "/" bob_pdf = None
  ∧ fs w !! bob_pdf = Some (File (Pdf [bob]))
  ∧ fs w !! Path.parent ("Failed to Send/" +:+ bob_pdf) = Some Dir
  ∧ fs w !! ("Failed to Send/" +:+ bob_pdf) = Some (File (Pdf [blank]))
  ∧ Path.join "Failed to Send" bob_pdf = "Failed to Send/" +:+ bob_pdf
  ∧ move_to_failed_send_folder bob_pdf w =
      (Ok tt, set_fs (λ m, <["Failed to Send/" +:+ bob_pdf := File (Pdf [bob])]>
                             (delete bob_pdf m)) w).
Proof.
  intros w. do 4 (split; [vm_compute; reflexivity|]).
  apply (move_to_failed_replaces bob_pdf (Pdf [bob]) (Pdf [blank]) w);
    vm_compute; reflexivity.
Defined.

End Witnesses.

(** * Further properties of the script *)

Module FilingFacts.
Import StrFacts PathFacts.

Lemma partition_None sep s :
  Str.partition sep s = None ↔ ∀ a b, s ≠ a +:+ sep +:+ b.
Proof.
  split.
  - intros Hnone a b ->. destruct (partition_app sep a b) as [x Hx]. congruence.
  - intros Hno. destruct (Str.partition sep s) as [[a b]|] eqn:E; [|done].
    apply partition_Some in E. by destruct (Hno a b).
Qed.

(** A failed [os.rename] has done nothing, and it fails in one of four ways. *)
Lemma rename_raises src dst w e w' :
  Os.rename src dst w = (Raise e, w') →
  w' = w ∧ e ∈ [FileNotFoundError; NotADirectoryError; IsADirectoryError; OSError].
Proof.
  unfold Os.rename, Os.check_parent.
  repeat case_match; intros ?; simplify_eq; split; try done; repeat constructor.
Qed.

Lemma move_to_sent_folder_no_separator p w :
  (∀ a b, (Path.splitext (Path.basename p)).1 ≠ a +:+ " - " +:+ b) →
  move_to_sent_folder p w = (Raise ValueError, w).
Proof.
  intros Hno. unfold move_to_sent_folder.
  destruct (Path.splitext (Path.basename p)) as [base ext]. simpl in Hno.
  apply partition_None in Hno. unfold Str.split1. by rewrite Hno.
Qed.

Lemma move_to_sent_folder_separator p w a b :
  (Path.splitext (Path.basename p)).1 = a +:+ " - " +:+ b →
  ∃ target, Str.mem "/" target = false ∧ fs w !! ("Sent/" +:+ target) = None ∧
    move_to_sent_folder p w = Os.rename p ("Sent/" +:+ target) w.
Proof.
  intros Hbase.
  destruct (Path.splitext (Path.basename p)) as [base ext] eqn:Hsplit. simpl in Hbase.
  subst base.
  destruct (SentFacts.move_to_sent_folder_rename w p a b ext Hsplit)
    as (n & _ & Hfree & Hns & Hmove).
  eauto.
Qed.

Lemma move_to_sent_folder_raises p w e w' :
  move_to_sent_folder p w = (Raise e, w') → w' = w.
Proof.
  destruct (Str.partition " - " (Path.splitext (Path.basename p)).1) as [[a b]|] eqn:Hpart.
  - apply partition_Some in Hpart.
    destruct (move_to_sent_folder_separator p w a b Hpart) as (t & _ & _ & ->).
    intros H. by apply rename_raises in H as [-> _].
  - rewrite move_to_sent_folder_no_separator by (by apply partition_None).
    by intros [= _ ->].
Qed.

(** [send_email] on something that is not a regular file. *)
Lemma send_email_unreadable sender pw rcpt path body w :
  (∀ d, fs w !! path ≠ Some (File d)) →
  ∃ e, send_email sender pw rcpt path body w = (Raise e, ensure_dir "Sent" w)
       ∧ (e = FileNotFoundError ∨ e = IsADirectoryError).
Proof.
  intros Hno. unfold send_email.
  rewrite (RunFacts.ensure_dir_then _ "Sent" w) by done.
  unfold bind at 1, Os.read_binary at 1.
  assert (Hlook : ∀ d, fs (ensure_dir "Sent" w) !! path ≠ Some (File d)).
  { intros d. simpl. case_bool_decide; [apply Hno|].
    destruct (decide (path = "Sent")) as [->|Hne].
    - by rewrite lookup_insert_eq.
    - rewrite lookup_insert_ne by done. apply Hno. }
  destruct (fs (ensure_dir "Sent" w) !! path) as [[d|]|] eqn:E.
  - by destruct (Hlook d).
  - exists IsADirectoryError. eauto.
  - exists FileNotFoundError. eauto.
Qed.

End FilingFacts.

(** X1: [move_to_sent_folder] always comes back, and it is all or nothing:
    when it raises, the world is exactly as before.  It raises [ValueError]
    exactly when the base name, without its extension, has no [" - "]. *)
Theorem move_to_sent_folder_all_or_nothing (p : string) (w : world) :
  (move_to_sent_folder p w).1 ≠ Diverge
  ∧ (∀ e, (move_to_sent_folder p w).1 = Raise e → (move_to_sent_folder p w).2 = w)
  ∧ ((move_to_sent_folder p w).1 = Raise ValueError
     ↔ ∀ a b, (Path.splitext (Path.basename p)).1 ≠ a +:+ " - " +:+ b).
Proof.
  split_and!.
  - apply Total.total_move_to_sent_folder.
  - intros e He. destruct (move_to_sent_folder p w) as [r w'] eqn:Hrun. simpl in *.
    subst r. by apply FilingFacts.move_to_sent_folder_raises in Hrun.
  - split.
    + intros Hval a b Hbase.
      destruct (FilingFacts.move_to_sent_folder_separator p w a b Hbase)
        as (t & _ & _ & Hmove).
      rewrite Hmove in Hval.
      destruct (Os.rename p ("Sent/" +:+ t) w) as [r w'] eqn:Hren. simpl in Hval. subst r.
      apply FilingFacts.rename_raises in Hren as [_ Hin].
      repeat (apply elem_of_cons in Hin as [Hin|Hin]; [discriminate Hin|]).
      by apply elem_of_nil in Hin.
    + intros Hno. by rewrite FilingFacts.move_to_sent_folder_no_separator.
Qed.

Module ArtifactFacts.
Import StrFacts PathFacts RunFacts.

Lemma rfind_lt c s : Str.rfind c s < Z.of_nat (String.length s).
Proof.
  induction s as [|a s IH]; simpl String.length; simpl Str.rfind; [lia|].
  destruct (Z.leb_spec 0 (Str.rfind c s)); [lia|]. case_decide; lia.
Qed.

Lemma rfind_app_plain c s t :
  Str.mem c t = false → Str.rfind c (s +:+ t) = Str.rfind c s.
Proof.
  intros Ht. induction s as [|a s IH].
  - rewrite app_nil_l. apply rfind_none in Ht. pose proof (rfind_ge c t). simpl. lia.
  - rewrite app_cons. simpl. by rewrite IH.
Qed.

Lemma drop_app_le n s t :
  (n ≤ String.length s)%nat → Str.drop n (s +:+ t) = Str.drop n s +:+ t.
Proof.
  revert s. induction n as [|n IH]; intros [|a s] Hn; simpl in *; try done; try lia.
  apply IH. lia.
Qed.

(** What follows the last separator stays the base name's tail. *)
Lemma basename_app_plain s t :
  Str.mem "/" t = false → Path.basename (s +:+ t) = Path.basename s +:+ t.
Proof.
  intros Ht. unfold Path.basename, Str.slice_from.
  rewrite rfind_app_plain by done. apply drop_app_le.
  pose proof (rfind_lt "/" s). pose proof (rfind_ge "/" s). lia.
Qed.

(** The base name of an artifact is an artifact name again. *)
Lemma artifact_basename date ident :
  Str.mem "/" ident = false →
  Path.basename (artifact_path date ident) = artifact_path (Path.basename date) ident.
Proof.
  intros Hid. unfold artifact_path. apply basename_app_plain.
  by rewrite !mem_app, Hid.
Qed.

Lemma artifact_base date ident :
  Str.mem "/" ident = false →
  Path.splitext (Path.basename (artifact_path date ident))
  = (Path.basename date +:+ " - " +:+ ident, ".pdf").
Proof.
  intros Hid. rewrite artifact_basename by done.
  apply artifact_splitext; [apply basename_no_slash|done].
Qed.

Lemma relative_app dir x :
  dir ≠ "" → Str.strip_prefix "/" dir = None → Str.strip_prefix "/" (dir +:+ x) = None.
Proof. destruct dir as [|a dir]; [done|]. intros _. rewrite app_cons. simpl. by case_decide. Qed.

End ArtifactFacts.


(** X3: however [send_email] fails, it has moved no file: the file system is
    the one it started with, plus the directory [Sent]; it has printed
    nothing and has opened no document. *)
Theorem failed_send_email_moves_nothing
    (sender pw rcpt path : string) (body : option string) (w w' : world) (e : exn) :
  send_email sender pw rcpt path body w = (Raise e, w') →
  fs w' = fs (ensure_dir "Sent" w) ∧ stdout w' = stdout w ∧ handles w' = handles w.
Proof.
  destruct (fs w !! path) as [[d|]|] eqn:Hfile.
  - rewrite (RunFacts.send_email_run _ _ _ _ _ d) by done. simpl.
    destruct (session_error (Smtp.outcome w)) as [e0|].
    + by intros [= _ <-].
    + intros Hmove. by apply FilingFacts.move_to_sent_folder_raises in Hmove as ->.
  - destruct (FilingFacts.send_email_unreadable sender pw rcpt path body w)
      as (e0 & -> & _); [intros d; congruence|]. by intros [= _ <-].
  - destruct (FilingFacts.send_email_unreadable sender pw rcpt path body w)
      as (e0 & -> & _); [intros d; congruence|]. by intros [= _ <-].
Qed.

(** X4: [send_email] on a file whose base name has no [" - "] sends the
    message all the same: the server accepts it, and only then the filing
    raises [ValueError]; the file stays where it is. *)
Theorem send_email_accepted_then_value_error
    (sender pw rcpt path : string) (body : option string) (d : data) (w : world) :
  fs w !! path = Some (File d) →
  (∀ a b, (Path.splitext (Path.basename path)).1 ≠ a +:+ " - " +:+ b) →
  Smtp.outcome w = NetOk →
  ∃ w', send_email sender pw rcpt path body w = (Raise ValueError, w') ∧
    wire w' = wire w ++
      [Connected "smtp.gmail.com" 465 ImplicitTLS; LoggedIn sender pw;
       Accepted (pay_stub_message sender rcpt (default "" body) (Path.basename path) d);
       Quit] ∧
    fs w' !! path = Some (File d) ∧
    fs w' = fs (ensure_dir "Sent" w).
Proof.
  intros Hfile Hno Hnet.
  rewrite (RunFacts.send_email_run _ _ _ _ _ d) by done. simpl.
  rewrite Hnet. simpl.
  rewrite FilingFacts.move_to_sent_folder_no_separator by done.
  eexists. split; [done|]. split_and!.
  - simpl. unfold Smtp.outcome in *. simpl. by rewrite Hnet.
  - by apply RunFacts.ensure_dir_lookup.
  - done.
Qed.


(** X6: for an absolute artifact path the join is the path itself, so the
    failed path renames the artifact onto itself: the call returns normally
    and has moved nothing. *)
Theorem move_to_failed_ignores_absolute_path (path rest : string) (nd : node) (w : world) :
  Str.strip_prefix "/" path = Some rest →
  fs w !! path = Some nd →
  Path.parent path = "" ∨ fs w !! Path.parent path = Some Dir →
  move_to_failed_send_folder path w = (Ok tt, w).
Proof.
  intros Habs Hfile Hparent. unfold move_to_failed_send_folder, Path.join.
  rewrite Habs. rewrite bool_decide_eq_true_2 by eauto.
  unfold Os.rename, Os.check_parent. rewrite Hfile.
  destruct Hparent as [->|Hdir].
  - rewrite bool_decide_eq_true_2 by done. by rewrite bool_decide_eq_true_2.
  - rewrite Hdir. case_bool_decide; by rewrite bool_decide_eq_true_2.
Qed.

(** X7: whatever the period end date, the artifact of a page has a base name
    that [move_to_sent_folder] can take apart: filing it never raises
    [ValueError]. *)
Theorem artifact_name_always_parses (date ident : string) (w : world) :
  Str.all is_local ident = true →
  Path.splitext (Path.basename (artifact_path date ident))
  = (Path.basename date +:+ " - " +:+ ident, ".pdf")
  ∧ (move_to_sent_folder (artifact_path date ident) w).1 ≠ Raise ValueError.
Proof.
  intros Hlocal. apply RunFacts.local_no_slash in Hlocal.
  pose proof (ArtifactFacts.artifact_base date ident Hlocal) as Hbase.
  split; [done|].
  destruct (FilingFacts.move_to_sent_folder_separator (artifact_path date ident) w
              (Path.basename date) ident) as (t & _ & _ & ->); [by rewrite Hbase|].
  destruct (Os.rename (artifact_path date ident) ("Sent/" +:+ t) w) as [r w'] eqn:Hren.
  simpl. intros ->. apply FilingFacts.rename_raises in Hren as [_ Hin].
  repeat (apply elem_of_cons in Hin as [Hin|Hin]; [discriminate Hin|]).
  by apply elem_of_nil in Hin.
Qed.

(** * Pages that are delivered *)

Module DeliveryFacts.
Import StrFacts PathFacts RunFacts PageFacts.

Section Delivery.
Variables (domain date sender pw body : string) (doc : list page) (n : nat) (pg : page).
Variables (email ident : string) (w : world).
Hypothesis Hdate : Str.mem "/" date = false.
Hypothesis Hmatch : extract (configured domain) (page_text pg) = Some (email, ident).
Hypothesis Hdoc : doc !! n = Some pg.
Hypothesis Hcopy : copyable pg = true.
Hypothesis Hfree : fs w !! artifact_path date ident ≠ Some Dir.
Hypothesis Hnet : Smtp.outcome w = NetOk.
Hypothesis Hsent : ∀ d, fs w !! "Sent" ≠ Some (File d).

Local Abbreviation path := (artifact_path date ident).
Local Abbreviation w1 := (after_split pg (artifact_path date ident) w).
Local Abbreviation msg :=
  (pay_stub_message sender email body (artifact_path date ident) (Pdf [pg])).
Local Abbreviation w3 :=
  (after_session sender pw
     (pay_stub_message sender email body (artifact_path date ident) (Pdf [pg]))
     (ensure_dir "Sent" (after_split pg (artifact_path date ident) w))).
Local Abbreviation name := (sent_name (artifact_path date ident) date ident ".pdf").

Lemma path_plain : Str.mem "/" path = false.
Proof. by apply (HandlerFacts.path_no_slash domain date pg email ident). Qed.

Lemma sent_entries_kept x : fs w3 !! ("Sent/" +:+ x) = fs w !! ("Sent/" +:+ x).
Proof.
  change (fs w3) with (fs (ensure_dir "Sent" w1)).
  rewrite ensure_dir_other by (by intros [=]). simpl.
  rewrite lookup_insert_ne; [done|].
  intros Heq. apply (f_equal (Str.mem "/")) in Heq. by rewrite path_plain in Heq.
Qed.

Lemma sent_is_directory : fs w3 !! "Sent" = Some Dir.
Proof.
  change (fs w3) with (fs (ensure_dir "Sent" w1)).
  assert (Hw1 : fs w1 !! "Sent" = fs w !! "Sent").
  { simpl. rewrite lookup_insert_ne; [done|]. by apply HandlerFacts.path_not_tracked. }
  simpl in *. case_bool_decide as Hex.
  - rewrite Hw1 in *.
    destruct (fs w !! "Sent") as [[d|]|] eqn:E; [by destruct (Hsent d) | done | by destruct Hex].
  - by rewrite lookup_insert_eq.
Qed.

(** The [try] branch: the artifact goes under [Sent]. *)
Lemma page_delivered :
  ∃ k : nat,
    (∀ m, (m < k)%nat → is_Some (fs w !! ("Sent/" +:+ name m))) ∧
    fs w !! ("Sent/" +:+ name k) = None ∧
    process_page (configured domain) date sender pw body doc n pg w =
      (Ok tt, add_line (SentTo email)
                (set_fs (λ m, <["Sent/" +:+ name k := File (Pdf [pg])]> (delete path m)) w3)).
Proof.
  pose proof path_plain as Hns.
  assert (Hbase : Path.basename path = path) by (by apply no_slash_basename).
  assert (Hart : fs w3 !! path = Some (File (Pdf [pg]))).
  { apply ensure_dir_lookup. apply HandlerFacts.artifact_written. }
  destruct (SentFacts.move_to_sent_folder_rename w3 path date ident ".pdf")
    as (k & Hused & Hfree3 & Hnsk & Hmove).
  { rewrite Hbase. apply artifact_splitext; [done|].
    apply (HandlerFacts.ident_no_slash domain pg email ident Hmatch). }
  rewrite Hbase in *. cbv zeta in *.
  exists k. split_and!.
  - intros m Hm. rewrite <- sent_entries_kept. by apply Hused.
  - by rewrite <- sent_entries_kept.
  - rewrite (process_page_after_split domain date sender pw body doc n pg email ident
               Hmatch w w1)
      by (by apply (HandlerFacts.split_done domain date doc n pg email ident w)).
    rewrite (send_email_run _ _ _ _ _ (Pdf [pg])) by apply HandlerFacts.artifact_written.
    change (Smtp.outcome w1) with (Smtp.outcome w). rewrite Hnet, Hbase. simpl.
    rewrite Hmove.
    assert (Hren : Os.rename path ("Sent/" +:+ name k) w3 =
      (Ok tt, set_fs (λ m, <["Sent/" +:+ name k := File (Pdf [pg])]> (delete path m)) w3)).
    { apply (SentFacts.rename_into w3 path "Sent"); try done.
      - apply sent_is_directory.
      - change (fs w3 !! ("Sent/" +:+ name k) ≠ Some Dir). by rewrite Hfree3.
      - intros Heq. apply (f_equal (Str.mem "/")) in Heq. rewrite Hns in Heq.
        by rewrite mem_app in Heq. }
    by rewrite Hren.
Qed.

End Delivery.
End DeliveryFacts.



(** * The run as a whole *)

Module RunWhole.
Import PageFacts.

Lemma same_stdout_split_page doc n path w :
  stdout (split_page doc n path w).2 = stdout w.
Proof.
  apply (Frame.keeps_split_page same_stdout); unfold same_stdout; try done.
  intros a b c Hab Hbc. by rewrite Hbc.
Qed.

Lemma same_stdout_send_email sender pw rcpt path body w :
  stdout (send_email sender pw rcpt path body w).2 = stdout w.
Proof.
  apply (Frame.keeps_send_email same_stdout); unfold same_stdout; try done.
  intros a b c Hab Hbc. by rewrite Hbc.
Qed.

Lemma same_stdout_rename src dst w : stdout (Os.rename src dst w).2 = stdout w.
Proof. by apply (Frame.keeps_rename same_stdout). Qed.

(** One page prints one line, unless its split raises. *)
Lemma process_page_prints dom date sender pw body doc n pg w r w' :
  process_page dom date sender pw body doc n pg w = (r, w') →
  (∃ l, stdout w' = stdout w ++ [l] ∧ line_fits dom n pg l)
  ∨ (∃ e, r = Raise e ∧ stdout w' = stdout w ∧ is_Some (extract dom (page_text pg))).
Proof.
  unfold process_page, line_fits.
  destruct (extract dom (page_text pg)) as [[email ident]|].
  2: { intros [= <- <-]. left. eauto. }
  set (path := date +:+ " - " +:+ ident +:+ ".pdf").
  unfold bind at 1.
  pose proof (same_stdout_split_page doc n path w) as Hsplit.
  pose proof (Total.total_split_page doc n path w) as Htot.
  destruct (split_page doc n path w) as [[[]|e|] w1]; simpl in *; [| |done].
  2: { intros [= <- <-]. right. eauto. }
  unfold try_except, bind at 1.
  pose proof (same_stdout_send_email sender pw email path (Some body) w1) as Hsend.
  pose proof (Total.total_send_email sender pw email path (Some body) w1) as Htot2.
  destruct (send_email sender pw email path (Some body) w1) as [[[]|e|] w2]; simpl in *;
    [| |done].
  - intros [= <- <-]. left. exists (SentTo email). simpl. rewrite Hsend, Hsplit. eauto.
  - unfold bind, print, move_to_failed_send_folder. intros Hrun.
    pose proof (same_stdout_rename path (Path.join "Failed to Send" path)
                  (add_line (FailedTo email e) w2)) as Hren.
    rewrite Hrun in Hren. simpl in Hren.
    left. exists (FailedTo email e). rewrite Hren, Hsend, Hsplit. eauto.
Qed.

Lemma process_page_ok_prints dom date sender pw body doc n pg w w' :
  process_page dom date sender pw body doc n pg w = (Ok tt, w') →
  ∃ l, stdout w' = stdout w ++ [l] ∧ line_fits dom n pg l.
Proof.
  intros Hrun.
  by destruct (process_page_prints dom date sender pw body doc n pg w _ _ Hrun)
    as [H|(e & He & _)].
Qed.

(** A loop that runs to its end prints one fitting line per page. *)
Lemma for_pages_ok_prints dom date sender pw body doc n todo w w' :
  for_pages dom date sender pw body doc n todo w = (Ok tt, w') →
  ∃ ls, stdout w' = stdout w ++ ls ∧ List.length ls = List.length todo ∧
    ∀ i pg l, todo !! i = Some pg → ls !! i = Some l → line_fits dom (n + i) pg l.
Proof.
  revert n w. induction todo as [|pg todo IH]; intros n w Hrun.
  - injection Hrun as <-. exists []. rewrite app_nil_r. split_and!; [done..|].
    intros i pg l H. by rewrite lookup_nil in H.
  - rewrite for_pages_step in Hrun.
    destruct (process_page dom date sender pw body doc n pg w) as [[[]|e|] w1] eqn:Hpage;
      [|done..].
    apply process_page_ok_prints in Hpage as (l & Hl & Hfit).
    apply IH in Hrun as (ls & Hls & Hlen & Hfits).
    exists (l :: ls). rewrite Hls, Hl, <- (assoc_L (++)). split_and!; [done|simpl; lia|].
    intros [|i] pg' l' Hpg Hl'; simpl in *; simplify_eq.
    + by rewrite Nat.add_0_r.
    + replace (n + S i)%nat with (S n + i)%nat by lia. by eapply Hfits.
Qed.

End RunWhole.

(** X10: a run that returns has printed exactly one line per page of the
    source, in page order: [No email found on page i] (counting from 1) for
    a page without address, and for a page with an address either
    [Sent pay stub to] or [Failed to send pay stub to] that address. *)
Theorem complete_run_prints_one_line_per_page
    (dom : Re.regex) (date sender pw body pdf : string) (w w' : world) :
  process_pay_stubs dom date sender pw body pdf w = (Ok tt, w') →
  ∃ pages ls, fs w !! pdf = Some (File (Pdf pages)) ∧
    stdout w' = stdout w ++ ls ∧ List.length ls = List.length pages ∧
    ∀ i pg l, pages !! i = Some pg → ls !! i = Some l → line_fits dom i pg l.
Proof.
  intros Hrun.
  assert (Hopen : ∃ pages, fs w !! pdf = Some (File (Pdf pages))).
  { revert Hrun. unfold process_pay_stubs.
    rewrite (RunFacts.ensure_dir_then _ "Failed to Send" w) by done.
    unfold bind at 1, Fitz.open at 1. simpl.
    case_bool_decide as Hex.
    - destruct (fs w !! pdf) as [[[pages|]|]|]; try done. eauto.
    - destruct (decide (pdf = "Failed to Send")) as [->|Hne].
      + by rewrite lookup_insert_eq.
      + rewrite lookup_insert_ne by done.
        destruct (fs w !! pdf) as [[[pages|]|]|]; try done. eauto. }
  destruct Hopen as [pages Hpdf]. exists pages.
  rewrite (PageFacts.process_pay_stubs_opened _ _ _ _ _ _ pages) in Hrun by done.
  unfold bind in Hrun.
  destruct (for_pages dom date sender pw body pages 0 pages _) as [[[]|e|] w2] eqn:Hloop;
    [|done..].
  injection Hrun as <-.
  apply RunWhole.for_pages_ok_prints in Hloop as (ls & Hls & Hlen & Hfits).
  exists ls. split_and!; [done|exact Hls|done|exact Hfits].
Qed.

(** X11: a run on a source path that holds no regular file raises before the
    loop: [FileNotFoundError] when nothing is at the path, [FileDataError]
    when a directory is (or when the path is [Failed to Send] itself, which
    the run creates first).  By then [Failed to Send] has been created;
    nothing else has changed. *)
Theorem run_without_source
    (dom : Re.regex) (date sender pw body pdf : string) (w : world) :
  (∀ d, fs w !! pdf ≠ Some (File d)) →
  ∃ e, process_pay_stubs dom date sender pw body pdf w
       = (Raise e, ensure_dir "Failed to Send" w)
       ∧ (fs w !! pdf = None → pdf ≠ "Failed to Send" → e = FileNotFoundError)
       ∧ (fs w !! pdf = Some Dir ∨ pdf = "Failed to Send" → e = FileDataError)
       ∧ is_Some (fs (ensure_dir "Failed to Send" w) !! "Failed to Send").
Proof.
  intros Hno. unfold process_pay_stubs.
  rewrite (RunFacts.ensure_dir_then _ "Failed to Send" w) by done.
  unfold bind at 1, Fitz.open at 1.
  destruct (decide (pdf = "Failed to Send")) as [->|Hne].
  - assert (Hdir : fs (ensure_dir "Failed to Send" w) !! "Failed to Send" = Some Dir).
    { simpl. case_bool_decide as Hex; [|by rewrite lookup_insert_eq].
      destruct (fs w !! "Failed to Send") as [[d|]|] eqn:E;
        [by destruct (Hno d) | done | by destruct Hex]. }
    rewrite Hdir. exists FileDataError.
    split_and!; try done; try (by intros [?|?]); try (by eexists);
      apply RunFacts.ensure_dir_present.
  - rewrite RunFacts.ensure_dir_other by done.
    destruct (fs w !! pdf) as [[d|]|] eqn:E.
    + by destruct (Hno d).
    + exists FileDataError.
      split_and!; try done; try (by intros [?|?]); try (by eexists);
        apply RunFacts.ensure_dir_present.
    + exists FileNotFoundError.
      split_and!; try done; try (by intros [?|?]); try (by eexists);
        apply RunFacts.ensure_dir_present.
Qed.

Module WireFacts.

Lemma sessions_opened_app a b :
  sessions_opened (a ++ b) = (sessions_opened a + sessions_opened b)%nat.
Proof. unfold sessions_opened. by rewrite List.filter_app, length_app. Qed.

Lemma wire_grows_same k w w' : wire w' = wire w → wire_grows k w w'.
Proof.
  intros H. exists []. rewrite app_nil_r. split; [done|].
  unfold sessions_opened. simpl. lia.
Qed.

Lemma wire_grows_trans a b w w1 w2 :
  wire_grows a w w1 → wire_grows b w1 w2 → wire_grows (a + b) w w2.
Proof.
  intros (e1 & H1 & L1) (e2 & H2 & L2). exists (e1 ++ e2).
  rewrite H2, H1, (assoc_L (++)). split; [done|]. rewrite sessions_opened_app. lia.
Qed.

Lemma same_wire_split_page doc n path w : wire (split_page doc n path w).2 = wire w.
Proof.
  apply (Frame.keeps_split_page same_wire); unfold same_wire; try done.
  intros a b c Hab Hbc. by rewrite Hbc.
Qed.

Lemma same_wire_rename src dst w : wire (Os.rename src dst w).2 = wire w.
Proof. by apply (Frame.keeps_rename same_wire). Qed.

(** [send_email] opens at most one session. *)
Lemma send_email_wire sender pw rcpt path body w :
  wire_grows 1 w (send_email sender pw rcpt path body w).2.
Proof.
  destruct (fs w !! path) as [[d|]|] eqn:Hfile.
  - rewrite (RunFacts.send_email_run _ _ _ _ _ d) by done. cbv zeta.
    set (msg := pay_stub_message sender rcpt (default "" body) (Path.basename path) d).
    assert (Hsession : wire_grows 1 w (after_session sender pw msg (ensure_dir "Sent" w))).
    { exists (session_events sender pw msg (Smtp.outcome w)). split; [done|].
      by destruct (Smtp.outcome w). }
    destruct (session_error (Smtp.outcome w)); [done|].
    destruct Hsession as (evs & Hevs & Hle). exists evs.
    by rewrite Frame.same_wire_move_to_sent_folder.
  - destruct (FilingFacts.send_email_unreadable sender pw rcpt path body w)
      as (e0 & -> & _); [intros d; congruence|]. by apply wire_grows_same.
  - destruct (FilingFacts.send_email_unreadable sender pw rcpt path body w)
      as (e0 & -> & _); [intros d; congruence|]. by apply wire_grows_same.
Qed.

Lemma process_page_wire dom date sender pw body doc n pg w :
  wire_grows (if addressed dom pg then 1 else 0) w
    (process_page dom date sender pw body doc n pg w).2.
Proof.
  unfold process_page, addressed.
  destruct (extract dom (page_text pg)) as [[email ident]|].
  2: { rewrite bool_decide_eq_false_2 by (by intros []). by apply wire_grows_same. }
  rewrite bool_decide_eq_true_2 by done.
  set (path := date +:+ " - " +:+ ident +:+ ".pdf").
  unfold bind at 1.
  pose proof (same_wire_split_page doc n path w) as Hsplit.
  destruct (split_page doc n path w) as [[[]|e|] w1]; simpl in *;
    [|by apply wire_grows_same..].
  apply (wire_grows_trans 0 1 w w1); [by apply wire_grows_same|].
  unfold try_except, bind at 1.
  pose proof (send_email_wire sender pw email path (Some body) w1) as Hsend.
  destruct (send_email sender pw email path (Some body) w1) as [[[]|e|] w2]; simpl in *;
    [done| |done].
  unfold bind, print, move_to_failed_send_folder.
  apply (wire_grows_trans 1 0 w1 w2); [done|]. apply wire_grows_same.
  by rewrite same_wire_rename.
Qed.

Lemma for_pages_wire dom date sender pw body doc n todo w :
  wire_grows (List.length (List.filter (addressed dom) todo)) w
    (for_pages dom date sender pw body doc n todo w).2.
Proof.
  revert n w. induction todo as [|pg todo IH]; intros n w.
  - by apply wire_grows_same.
  - rewrite PageFacts.for_pages_step.
    pose proof (process_page_wire dom date sender pw body doc n pg w) as Hpage.
    specialize (IH (S n)).
    assert (Hmore : ∀ w1, wire_grows (if addressed dom pg then 1 else 0) w w1 →
              wire_grows (List.length (List.filter (addressed dom) (pg :: todo))) w w1).
    { intros w1 (evs & Hevs & Hle). exists evs. split; [done|].
      simpl. destruct (addressed dom pg); simpl; lia. }
    destruct (process_page dom date sender pw body doc n pg w) as [[[]|e|] w1];
      simpl in *; [|by apply Hmore..].
    pose proof (wire_grows_trans _ _ _ _ _ Hpage (IH w1)) as (evs & Hevs & Hle).
    exists evs. split; [done|]. simpl. destruct (addressed dom pg); simpl in *; lia.
Qed.

(** A split that returns has written the page it was asked for. *)
Lemma split_page_inv doc n path w w1 :
  split_page doc n path w = (Ok tt, w1) →
  ∃ pg, doc !! n = Some pg ∧ w1 = after_split pg path w.
Proof.
  unfold split_page, bind, Fitz.open_new, Fitz.insert_pdf, Fitz.save, Fitz.close,
    after_split.
  destruct (doc !! n) as [pg|]; [|done]. destruct (copyable pg); [|done].
  unfold ret. simpl. intros H. exists pg. split; [done|].
  repeat case_match; by simplify_eq.
Qed.

(** The traffic of one turn of the loop. *)
Lemma process_page_traffic dom date sender pw body doc n pg w :
  doc !! n = Some pg →
  ∃ evs, wire (process_page dom date sender pw body doc n pg w).2 = wire w ++ evs
    ∧ page_traffic dom date sender pw body pg evs.
Proof.
  intros Hdoc. unfold process_page, page_traffic.
  destruct (extract dom (page_text pg)) as [[email ident]|].
  2: { exists []. by rewrite List.app_nil_r. }
  change (date +:+ " - " +:+ ident +:+ ".pdf") with (artifact_path date ident).
  set (path := artifact_path date ident).
  unfold bind at 1.
  pose proof (same_wire_split_page doc n path w) as Hsplit.
  destruct (split_page doc n path w) as [[[]|e|] w1] eqn:Hrun; simpl in Hsplit;
    [|exists []; rewrite List.app_nil_r; by split; [|left]..].
  apply split_page_inv in Hrun as (pg' & Hpg' & ->).
  assert (pg' = pg) as -> by congruence.
  set (msg := pay_stub_message sender email body (Path.basename path) (Pdf [pg])).
  exists (session_events sender pw msg (Smtp.outcome w)).
  split; [|right; by eexists].
  unfold try_except, bind at 1.
  rewrite (RunFacts.send_email_run _ _ _ _ _ (Pdf [pg])) by (simpl; by rewrite lookup_insert_eq).
  cbv zeta. change (default "" (Some body)) with body. fold msg.
  change (Smtp.outcome (after_split pg path w)) with (Smtp.outcome w).
  set (w3 := after_session sender pw msg (ensure_dir "Sent" (after_split pg path w))).
  assert (Hw3 : wire w3 = wire w ++ session_events sender pw msg (Smtp.outcome w)) by done.
  destruct (session_error (Smtp.outcome w)) as [e|].
  - unfold bind, print, move_to_failed_send_folder. simpl.
    by rewrite same_wire_rename.
  - pose proof (Frame.same_wire_move_to_sent_folder path w3) as Hmove.
    destruct (move_to_sent_folder path w3) as [[[]|e|] w4];
      change (wire w4 = wire w3) in Hmove.
    + unfold bind, print. simpl. by rewrite Hmove.
    + unfold bind, print, move_to_failed_send_folder. simpl.
      rewrite same_wire_rename. simpl. by rewrite Hmove.
    + simpl. by rewrite Hmove.
Qed.

(** The traffic of the loop, turn by turn. *)
Lemma for_pages_traffic dom date sender pw body doc n todo w :
  (∀ i pg, todo !! i = Some pg → doc !! (n + i)%nat = Some pg) →
  ∃ chunks, wire (for_pages dom date sender pw body doc n todo w).2
            = wire w ++ List.concat chunks
    ∧ (List.length chunks ≤ List.length todo)%nat
    ∧ ∀ i pg evs, todo !! i = Some pg → chunks !! i = Some evs →
        page_traffic dom date sender pw body pg evs.
Proof.
  revert n w. induction todo as [|pg todo IH]; intros n w Hdoc.
  - exists []. simpl. rewrite List.app_nil_r. split_and!; [done..|].
    intros i pg evs H. by rewrite lookup_nil in H.
  - rewrite PageFacts.for_pages_step.
    destruct (process_page_traffic dom date sender pw body doc n pg w) as (evs1 & Hw1 & Hfit1).
    { specialize (Hdoc 0%nat pg eq_refl). by rewrite Nat.add_0_r in Hdoc. }
    assert (Hone : ∀ i pg' evs, (pg :: todo) !! i = Some pg' → [evs1] !! i = Some evs →
              page_traffic dom date sender pw body pg' evs).
    { intros [|i] pg' evs Hi Hc; simpl in *; [by simplify_eq|].
      by rewrite lookup_nil in Hc. }
    destruct (process_page dom date sender pw body doc n pg w) as [[[]|e|] w1];
      simpl in Hw1.
    + destruct (IH (S n) w1) as (chunks & Hw & Hlen & Hfit).
      { intros i pg' Hi. specialize (Hdoc (S i) pg' Hi).
        by rewrite Nat.add_succ_r in Hdoc. }
      exists (evs1 :: chunks). simpl. rewrite Hw, Hw1, (assoc_L (++)).
      split_and!; [done|lia|].
      intros [|i] pg' evs Hi Hc; simpl in *; [by simplify_eq|by apply (Hfit i)].
    + exists [evs1]. simpl. rewrite List.app_nil_r.
      split_and!; [done|lia|exact Hone].
    + exists [evs1]. simpl. rewrite List.app_nil_r.
      split_and!; [done|lia|exact Hone].
Qed.

End WireFacts.

(** X12: the SMTP traffic a run adds is a sequence of stretches, one for
    each page the loop reached, in page order.  The stretch of a page
    without address is empty; the stretch of a page with an address is
    empty or is one session: connect, login, the one message that carries
    that page's one-page artifact to that page's address, quit, as far as
    the network lets the session go.  So the run opens at most as many
    sessions as there are pages with an address, however it ends. *)
Theorem run_opens_at_most_one_session_per_addressed_page
    (dom : Re.regex) (date sender pw body pdf : string) (pages : list page) (w : world) :
  fs w !! pdf = Some (File (Pdf pages)) →
  ∃ chunks,
    wire (process_pay_stubs dom date sender pw body pdf w).2
      = wire w ++ List.concat chunks
    ∧ (List.length chunks ≤ List.length pages)%nat
    ∧ (∀ i pg evs, pages !! i = Some pg → chunks !! i = Some evs →
         page_traffic dom date sender pw body pg evs)
    ∧ (sessions_opened (List.concat chunks)
       ≤ List.length (List.filter (addressed dom) pages))%nat.
Proof.
  intros Hpdf.
  rewrite (PageFacts.process_pay_stubs_opened _ _ _ _ _ _ pages) by done.
  set (w1 := add_handle (Opened (Source pdf)) (ensure_dir "Failed to Send" w)).
  destruct (WireFacts.for_pages_traffic dom date sender pw body pages 0 pages w1)
    as (chunks & Hchunks & Hlen & Hfit); [done|].
  destruct (WireFacts.for_pages_wire dom date sender pw body pages 0 pages w1)
    as (evs & Hevs & Hle).
  assert (Hsame : evs = List.concat chunks).
  { rewrite Hchunks in Hevs. by apply (inj (app (wire w1))) in Hevs. }
  subst evs. exists chunks. split_and!; [|done..].
  unfold bind.
  destruct (for_pages dom date sender pw body pages 0 pages w1) as [[[]|e|] w2];
    simpl in *; by rewrite Hchunks.
Qed.

Module DialogueFacts.

Import Console.

(** [getSecret] in one equation. *)
Lemma getSecret_run project_id secret_id service_account c :
  getSecret project_id secret_id service_account c =
    match stored_secret project_id secret_id service_account c with
    | Some v => (Done v, c)
    | None => (Done PyNone, show SaidSecretError c)
    end.
Proof.
  unfold getSecret, stored_secret, try_except, bind, from_service_account_json,
    access_secret_version, json_loads_decode.
  destruct (cloud c service_account) as [client|]; [|done].
  by destruct (client _) as [| |v].
Qed.

Lemma stored_secret_typed project_id secret_id service_account c x l :
  stored_secret project_id secret_id service_account (set_stdin l (show x c)) =
  stored_secret project_id secret_id service_account c.
Proof. done. Qed.

(** [main] up to the point where the secret is in hand. *)
Lemma main_asks_then_fetches dom rt FilePath name rest c :
  stdin c = name :: rest →
  main dom rt FilePath c =
    let c1 := set_stdin rest (show ask_pdf c) in
    match stored_secret PROJECT_ID SECRET_ID (FilePath service_account_file) c with
    | None => (Done tt, show SaidSecretError c1)
    | Some PyNone => (Done tt, c1)
    | Some v =>
        (do sender_email <- subscript v "email";
         do password <- subscript v "email_password";
         do period_end_date <- input "Please enter the Period End Date (MM/DD/YYYY): ";
         do email_body <-
           input "Please enter any additional message for the email body (optional): ";
         lift (process_pay_stubs dom (formatted_date period_end_date) sender_email password
                 email_body (resource_path rt name)) >>
         print "Paystubs sent. Please review the 'Failed to Send' folder for any issues." >>
         input "Press Enter to exit..." >>
         ret tt)%console c1
    end.
Proof.
  intros Hin. unfold main. unfold bind at 1, input at 1. rewrite Hin.
  unfold bind at 1. rewrite getSecret_run, stored_secret_typed.
  by destruct (stored_secret _ _ _ c) as [[| |]|].
Qed.

(** [main] with a complete secret and three typed lines. *)
Lemma main_with_credentials dom rt FilePath name date body rest d sender pw c :
  stdin c = name :: date :: body :: rest →
  stored_secret PROJECT_ID SECRET_ID (FilePath service_account_file) c = Some (PyDict d) →
  d !! "email" = Some sender →
  d !! "email_password" = Some pw →
  main dom rt FilePath c =
    let asked := ((screen c ++ [ask_pdf]) ++ [ask_date]) ++ [ask_body] in
    match process_pay_stubs dom (formatted_date date) sender pw body
            (resource_path rt name) (machine c) with
    | (Ok _, w') =>
        match rest with
        | [] =>
            (Fail EOFError,
             Console w' [] ((asked ++ [say_done]) ++ [ask_enter]) (cloud c))
        | _ :: rest' =>
            (Done tt,
             Console w' rest' ((asked ++ [say_done]) ++ [ask_enter]) (cloud c))
        end
    | (Raise e, w') => (Fail (Lib e), Console w' rest asked (cloud c))
    | (Diverge, w') => (Hang, Console w' rest asked (cloud c))
    end.
Proof.
  intros Hin Hsecret He Hpw.
  rewrite (main_asks_then_fetches _ _ _ name (date :: body :: rest)) by done.
  cbv zeta. rewrite Hsecret.
  unfold bind at 1, subscript at 1. rewrite He.
  unfold ret at 1. cbv beta iota.
  unfold bind at 1, subscript at 1. rewrite Hpw.
  unfold ret at 1. cbv beta iota.
  unfold bind at 1, input at 1. simpl stdin. cbv beta iota.
  unfold bind at 1, input at 1. simpl stdin. cbv beta iota.
  unfold bind at 1, lift at 1. simpl machine.
  destruct (process_pay_stubs dom (formatted_date date) sender pw body
              (resource_path rt name) (machine c)) as [[[]|e|] w']; [|done..].
  unfold bind, print, input. simpl. by destruct rest.
Qed.

End DialogueFacts.

(** X14: without credentials [main] does nothing.  When the secret cannot
    be fetched, or is JSON [null], [main] returns normally after the first
    prompt: it asks for no date and no message, reads one line, leaves the
    machine (files, mail, output) as it was and never prints the closing
    message. *)
Theorem main_without_credentials
    (dom : Re.regex) (rt : runtime) (FilePath : string → string)
    (name : string) (rest : list string) (c : Console.console) :
  Console.stdin c = name :: rest →
  stored_secret PROJECT_ID SECRET_ID (FilePath service_account_file) c = None
  ∨ stored_secret PROJECT_ID SECRET_ID (FilePath service_account_file) c
    = Some Console.PyNone →
  ∃ c', Console.main dom rt FilePath c = (Console.Done tt, c')
    ∧ Console.machine c' = Console.machine c
    ∧ Console.stdin c' = rest
    ∧ (Console.screen c' = Console.screen c ++ [ask_pdf]
       ∨ Console.screen c' = Console.screen c ++ [ask_pdf; Console.SaidSecretError]).
Proof.
  intros Hin Hsecret. rewrite (DialogueFacts.main_asks_then_fetches _ _ _ name rest) by done.
  cbv zeta. destruct Hsecret as [-> | ->]; eexists; (split; [reflexivity|]).
  - split_and!; [done..|]. right. simpl. by rewrite <- (assoc_L (++)).
  - split_and!; [done..|]. by left.
Qed.

(** X15: a secret that is not a dictionary with both keys stops [main] at
    the subscript: [KeyError] for the first of ["email"], ["email_password"]
    that is missing, [TypeError] when the secret is no dictionary.  This is
    before the date is asked for; nothing is read beyond the file name and
    the machine is untouched. *)
Theorem main_incomplete_secret
    (dom : Re.regex) (rt : runtime) (FilePath : string → string)
    (name : string) (rest : list string) (v : Console.pyvalue) (c : Console.console) :
  Console.stdin c = name :: rest →
  stored_secret PROJECT_ID SECRET_ID (FilePath service_account_file) c = Some v →
  v ≠ Console.PyNone →
  (∀ d, v = Console.PyDict d → d !! "email" = None ∨ d !! "email_password" = None) →
  Console.main dom rt FilePath c =
    (Console.Fail
       match v with
       | Console.PyDict d =>
           Console.KeyError
             match d !! "email" with Some _ => "email_password" | None => "email" end
       | _ => Console.TypeError
       end,
     Console.set_stdin rest (Console.show ask_pdf c)).
Proof.
  intros Hin Hsecret Hnone Hkeys.
  rewrite (DialogueFacts.main_asks_then_fetches _ _ _ name rest) by done.
  cbv zeta. rewrite Hsecret. destruct v as [|d|]; [done| |done].
  unfold Console.bind at 1, Console.subscript at 1.
  destruct (d !! "email") as [e|] eqn:He; [|done].
  destruct (Hkeys d eq_refl) as [?|Hpw]; [congruence|].
  unfold Console.ret at 1. cbv beta iota.
  unfold Console.bind at 1, Console.subscript at 1. by rewrite Hpw.
Qed.

(** X16: with credentials and three typed lines, [main] is the pipeline.
    The machine ends as [process_pay_stubs] leaves it when called with the
    typed date with every [/] replaced by [-] (so the date adds no
    directory to an artifact's name), the two values of the secret, the
    typed message and [resource_path] of the typed name.  The closing
    message is shown exactly when the pipeline returns; an exception of the
    pipeline leaves [main] unhandled, after the three prompts, and a
    pipeline that does not come back keeps [main] from coming back. *)
Theorem main_runs_the_pipeline
    (dom : Re.regex) (rt : runtime) (FilePath : string → string)
    (name date body : string) (rest : list string) (d : gmap string string)
    (sender pw : string) (c : Console.console) :
  Console.stdin c = name :: date :: body :: rest →
  stored_secret PROJECT_ID SECRET_ID (FilePath service_account_file) c
    = Some (Console.PyDict d) →
  d !! "email" = Some sender →
  d !! "email_password" = Some pw →
  let run := process_pay_stubs dom (formatted_date date) sender pw body
               (resource_path rt name) (Console.machine c) in
  let r := Console.main dom rt FilePath c in
  Console.machine r.2 = run.2
  ∧ Str.mem "/" (formatted_date date) = false
  ∧ match run.1 with
    | Ok _ =>
        Console.screen r.2
          = Console.screen c ++ [ask_pdf; ask_date; ask_body; say_done; ask_enter]
        ∧ r.1 = match rest with
                | [] => Console.Fail Console.EOFError
                | _ :: _ => Console.Done tt
                end
    | Raise e =>
        r.1 = Console.Fail (Console.Lib e)
        ∧ Console.screen r.2 = Console.screen c ++ [ask_pdf; ask_date; ask_body]
        ∧ Console.stdin r.2 = rest
    | Diverge =>
        r.1 = Console.Hang
        ∧ Console.screen r.2 = Console.screen c ++ [ask_pdf; ask_date; ask_body]
    end.
Proof.
  intros Hin Hsecret He Hpw run r. subst r.
  rewrite (DialogueFacts.main_with_credentials _ _ _ name date body rest d sender pw)
    by done.
  cbv zeta. fold run.
  split_and!; [|apply StrFacts.replace_no_slash|].
  - destruct run as [[[]|e|] w']; [by destruct rest|done..].
  - destruct run as [[[]|e|] w']; simpl in *.
    + destruct rest; simpl; (split; [|done]); by rewrite <- !(assoc_L (++)).
    + split_and!; [done| |done]. by rewrite <- !(assoc_L (++)).
    + split; [done|]. by rewrite <- !(assoc_L (++)).
Qed.

Module InstallFacts.

Import StrFacts.

Lemma isabs_inv p : PosixPath.isabs p = true → ∃ s, p = String "/" s.
Proof.
  unfold PosixPath.isabs, PosixPath.startswith. intros [r Hr]%bool_decide_eq_true.
  apply strip_prefix_Some in Hr. exists r. by rewrite Hr.
Qed.

Lemma isabs_cons s : PosixPath.isabs (String "/" s) = true.
Proof. apply bool_decide_eq_true_2. eexists. exact (strip_prefix_app "/" s). Qed.

Lemma rstrip_empty c s :
  PosixPath.rstrip c s = "" → s = PosixPath.times c (String.length s).
Proof.
  induction s as [|a s IH]; [done|]. simpl.
  destruct (PosixPath.rstrip c s) eqn:Hs; [|done].
  case_decide; [|done]. intros _. subst a. by rewrite <- IH.
Qed.

Lemma normpath_absolute p :
  PosixPath.isabs p = true → PosixPath.isabs (PosixPath.normpath p) = true.
Proof.
  intros Hp. destruct (isabs_inv _ Hp) as [s ->]. unfold PosixPath.normpath.
  rewrite bool_decide_eq_false_2 by done.
  change (PosixPath.startswith "/" (String "/" s)) with (PosixPath.isabs (String "/" s)).
  rewrite Hp. cbv zeta.
  destruct (PosixPath.startswith "//" (String "/" s)
            && negb (PosixPath.startswith "///" (String "/" s)));
    simpl PosixPath.times; rewrite !app_cons;
    (rewrite bool_decide_eq_false_2 by done); apply isabs_cons.
Qed.

Lemma dirname_absolute p :
  PosixPath.isabs p = true → PosixPath.isabs (PosixPath.dirname p) = true.
Proof.
  intros Hp. destruct (isabs_inv _ Hp) as [s ->]. unfold PosixPath.dirname, Str.slice_to.
  assert (Hfound : 0 ≤ Str.rfind "/" (String "/" s)).
  { simpl. pose proof (rfind_ge "/" s).
    destruct (Z.leb_spec 0 (Str.rfind "/" s)); lia. }
  destruct (Z.to_nat (Str.rfind "/" (String "/" s) + 1)) as [|k] eqn:Hk; [lia|].
  cbv zeta. simpl Str.take. set (t := Str.take k s).
  destruct (negb (bool_decide (String "/" t = ""))
            && negb (bool_decide
                 (String "/" t = PosixPath.times "/" (String.length (String "/" t)))))
    eqn:Hcond; [|apply isabs_cons].
  apply andb_prop in Hcond as [_ Hslashes%negb_true_iff%bool_decide_eq_false].
  simpl PosixPath.rstrip. destruct (PosixPath.rstrip "/" t) eqn:Ht.
  - destruct Hslashes. simpl. f_equal. by apply rstrip_empty.
  - apply isabs_cons.
Qed.

Lemma join_absolute a b :
  PosixPath.isabs a = true → PosixPath.isabs (Path.join a b) = true.
Proof.
  intros Ha. destruct (isabs_inv _ Ha) as [s ->]. unfold Path.join.
  case_bool_decide as Hb; [by apply bool_decide_eq_true_2|].
  destruct (_ || _); rewrite app_cons; apply isabs_cons.
Qed.

Lemma join_suffix a b :
  ∃ dir, Path.join a b = dir +:+ b ∧ (PosixPath.isabs b = true → dir = "").
Proof.
  unfold Path.join, PosixPath.isabs, PosixPath.startswith.
  case_bool_decide as Hb; [by exists ""|].
  destruct (_ || _).
  - by exists a.
  - exists (a +:+ "/"). split; [by rewrite app_assoc|done].
Qed.

End InstallFacts.

(** X17: [resource_path] gives an absolute path whenever the interpreter's
    own paths are absolute: the executable of a frozen application, or else
    the working directory that [abspath] resolves the script file
    against. *)
Theorem resource_path_is_absolute (rt : runtime) (relative_path : string) :
  PosixPath.isabs (if frozen rt then executable rt else cwd rt) = true →
  PosixPath.isabs (resource_path rt relative_path) = true.
Proof.
  intros Hbase. unfold resource_path. apply InstallFacts.join_absolute.
  destruct (frozen rt).
  - by apply InstallFacts.dirname_absolute.
  - apply InstallFacts.dirname_absolute. unfold PosixPath.abspath.
    apply InstallFacts.normpath_absolute.
    destruct (PosixPath.isabs (script_file rt)) eqn:Hscript; [done|].
    by apply InstallFacts.join_absolute.
Qed.

(** X18: whatever the installation, the path [resource_path] gives ends with
    the name as it was passed, and a name that is already absolute comes
    back unchanged: the application directory is then ignored. *)
Theorem resource_path_ends_with_the_name (rt : runtime) (relative_path : string) :
  ∃ dir, resource_path rt relative_path = dir +:+ relative_path
    ∧ (PosixPath.isabs relative_path = true → dir = "").
Proof. unfold resource_path. apply InstallFacts.join_suffix. Qed.

Module ShippedFacts.

Import StrFacts.

(** The pattern after the local part, when the domain is a character
    class. *)
Lemma exec_tail_class {A} p s g (k : string → option string → option A) :
  Re.exec (Re.Cat (Re.Lit "@") (Re.Cat (Re.Class p) (Re.literal ".com"))) s g k =
  match s with
  | String a (String c s') =>
      if decide (a = "@"%char) then
        if p c then
          match Str.strip_prefix ".com" s' with
          | Some rest => k rest g
          | None => None
          end
        else None
      else None
  | _ => None
  end.
Proof.
  destruct s as [|a [|c s']]; cbn [Re.exec]; try done.
  - by case_decide.
  - case_decide; [|done]. destruct (p c); [|done]. apply ReFacts.exec_literal_end.
Qed.

Lemma match_at_class_inv p s g0 g1 :
  Re.match_at (email_pattern (Re.Class p)) s = Some (g0, g1) →
  ∃ l c rest, s = l +:+ "@" +:+ String c ".com" +:+ rest ∧
    l ≠ "" ∧ Str.all is_local l = true ∧ p c = true ∧
    g0 = l +:+ "@" +:+ String c ".com" ∧ g1 = Some l.
Proof.
  rewrite ReFacts.match_at_unfold. intros H.
  apply ReFacts.plus_sound in H as (l & s' & -> & Hne & Hall & H).
  rewrite exec_tail_class in H.
  destruct s' as [|a [|c s']]; [done..|].
  case_decide as Ha; [subst a|done].
  destruct (p c) eqn:Hc; [|done].
  destruct (Str.strip_prefix ".com" s') as [rest|] eqn:Hs; [|done].
  apply strip_prefix_Some in Hs as ->.
  exists l, c, rest.
  assert (Hshape : l +:+ String "@" (String c (".com" +:+ rest))
                   = (l +:+ "@" +:+ String c ".com") +:+ rest).
  { by rewrite !app_assoc. }
  rewrite Hshape in H. rewrite take_app_sub in H.
  assert (Hlocal : ∀ x, Str.take (String.length ((l +:+ "@" +:+ String c ".com") +:+ rest)
                       - String.length (String "@" (String c (".com" +:+ rest))))
                     ((l +:+ "@" +:+ String c ".com") +:+ rest) = x → x = l).
  { intros x <-. rewrite <- Hshape. apply take_app_sub. }
  injection H as <- Hg1. split_and!; try done.
  rewrite <- Hg1. f_equal. by apply Hlocal.
Qed.

Lemma match_at_class_address p l c rest :
  l ≠ "" → Str.all is_local l = true → p c = true →
  Re.match_at (email_pattern (Re.Class p)) (l +:+ "@" +:+ String c ".com" +:+ rest)
  = Some (l +:+ "@" +:+ String c ".com", Some l).
Proof.
  intros Hne Hall Hc. rewrite ReFacts.match_at_unfold.
  change ("@" +:+ String c ".com" +:+ rest) with (String "@" (String c (".com" +:+ rest))).
  rewrite (ReFacts.plus_run is_local l) by
    (done || (intros; by apply ReFacts.exec_after_local)).
  rewrite exec_tail_class, decide_True, Hc, strip_prefix_app by done.
  assert (Hshape : l +:+ String "@" (String c (".com" +:+ rest))
                   = (l +:+ "@" +:+ String c ".com") +:+ rest).
  { by rewrite !app_assoc. }
  f_equal. f_equal.
  - rewrite Hshape. apply take_app_sub.
  - f_equal. apply take_app_sub.
Qed.

End ShippedFacts.

(** X19: the pattern as the repository ships it.  [[domain]] is a character
    class, so every address the unmodified script extracts has a domain of
    exactly one letter out of d, o, m, a, i, n before [.com]; the local part
    is non-empty and becomes the identifier, and the address occurs in the
    text. *)
Theorem shipped_pattern_takes_one_letter_domains (text email ident : string) :
  extract placeholder_domain text = Some (email, ident) →
  ∃ c, Str.mem c "domain" = true
    ∧ email = ident +:+ "@" +:+ String c ".com"
    ∧ ident ≠ "" ∧ Str.all is_local ident = true
    ∧ ∃ before after, text = before +:+ email +:+ after.
Proof.
  unfold extract, Re.search.
  pose proof (ReFacts.search_from_spec (email_pattern placeholder_domain) 0 text) as H.
  destruct (Re.search_from _ 0 text) as [[st g0 g1]|]; [|done]. simpl in *.
  destruct H as (pre & s1 & -> & _ & Hat & _).
  apply ShippedFacts.match_at_class_inv in Hat as (l & c & rest & -> & Hne & Hall & Hc & -> & ->).
  simpl. intros [= <- <-]. exists c. split_and!; try done.
  exists pre, rest. by rewrite !StrFacts.app_assoc.
Qed.

(** C1: on every page text, the extractor as the repository ships it returns
    the first (leftmost) substring of the form local-part, [@], one
    character out of d, o, m, a, i, n, [.com]: the [[domain]] of the pattern
    is a character class, not a literal domain.  The address is that
    substring, the identifier is its local part, and the identifier is not
    empty.  Without such a substring the extractor returns nothing. *)
Theorem extract_first_shipped_address (text : string) :
  match extract placeholder_domain text with
  | Some (address, identifier) =>
      identifier ≠ "" ∧ Str.all is_local identifier = true ∧
      (∃ c, Str.mem c "domain" = true
         ∧ address = identifier +:+ "@" +:+ String c ".com") ∧
      ∃ before after, text = before +:+ address +:+ after ∧
        ∀ before' a' after', text = before' +:+ a' +:+ after' →
          is_shipped_address a' →
          (String.length before < String.length before')%nat
          ∨ (before' = before ∧ a' = address)
  | None =>
      ∀ before' a' after', text = before' +:+ a' +:+ after' → ¬ is_shipped_address a'
  end.
Proof.
  unfold extract, Re.search, placeholder_domain.
  set (p := λ c : ascii, Str.mem c "domain").
  pose proof (ReFacts.search_from_spec (email_pattern (Re.Class p)) 0 text) as H.
  destruct (Re.search_from _ 0 text) as [[st g0 g1]|]; simpl in *.
  - destruct H as (pre & s1 & -> & _ & Hat & Hfirst).
    apply ShippedFacts.match_at_class_inv in Hat
      as (l & c & rest & -> & Hne & Hall & Hc & -> & ->).
    simpl. split_and!; [done|done|by exists c|].
    exists pre, rest. split; [by rewrite !StrFacts.app_assoc|].
    intros pre' a' post' Heq (l' & c' & Hne' & Hall' & Hc' & ->).
    destruct (Nat.lt_trichotomy (String.length pre) (String.length pre')) as [Hlt|[Hlen|Hgt]].
    + by left.
    + right. rewrite !StrFacts.app_assoc in Heq.
      apply StrFacts.app_inj_length in Heq as [<- Heq]; [|done]. split; [done|].
      pose proof (ShippedFacts.match_at_class_address p l c rest Hne Hall Hc) as H1.
      pose proof (ShippedFacts.match_at_class_address p l' c' post' Hne' Hall' Hc') as H2.
      rewrite Heq in H1. rewrite H1 in H2. by injection H2 as ->.
    + exfalso. rewrite !StrFacts.app_assoc in Heq.
      specialize (Hfirst pre' _ Heq Hgt).
      pose proof (ShippedFacts.match_at_class_address p l' c' post' Hne' Hall' Hc') as H2.
      by rewrite H2 in Hfirst.
  - intros pre' a' post' Heq (l' & c' & Hne' & Hall' & Hc' & ->).
    rewrite !StrFacts.app_assoc in Heq.
    specialize (H pre' _ Heq).
    pose proof (ShippedFacts.match_at_class_address p l' c' post' Hne' Hall' Hc') as H2.
    by rewrite H2 in H.
Qed.

Module HappyFacts.

Import StrFacts RunFacts PageFacts.

Section Page.
Variables (domain date sender pw body : string) (doc : list page) (n : nat) (pg : page).
Variable w : world.
Hypothesis Hdate : Str.mem "/" date = false.
Hypothesis Hdoc : doc !! n = Some pg.
Hypothesis Hcopy : copyable pg = true.

(** One page of a run in which nothing goes wrong. *)
Lemma page_goes_well todo :
  unobstructed domain date (pg :: todo) w →
  ∃ w', process_page (configured domain) date sender pw body doc n pg w = (Ok tt, w')
    ∧ stdout w' = stdout w ++ [good_line (configured domain) n pg]
    ∧ unobstructed domain date todo w'
    ∧ (∀ x, fs w' !! ("Failed to Send/" +:+ x) = fs w !! ("Failed to Send/" +:+ x))
    ∧ (∀ q, Str.mem "/" q = false → fs w' !! q = None ∨ fs w' !! q = fs w !! q ∨ q = "Sent")
    ∧ (∀ email ident, extract (configured domain) (page_text pg) = Some (email, ident) →
         fs w' !! artifact_path date ident = None).
Proof.
  intros (Hsent & Hfree & Hnet). unfold good_line.
  destruct (extract (configured domain) (page_text pg)) as [[email ident]|] eqn:Hmatch.
  2: { exists (add_line (NoEmailOnPage (n + 1)) w). unfold process_page. rewrite Hmatch.
       split_and!; try done.
       - split_and!; [done| |done]. intros pg' e i Hin. apply Hfree. by right.
       - intros q _. right. by left. }
  assert (Hok : Smtp.outcome w = NetOk).
  { unfold Smtp.outcome. destruct Hnet as [|o l Ho _]; [done|]. by subst o. }
  assert (Hdir : fs w !! artifact_path date ident ≠ Some Dir).
  { apply (Hfree pg email ident); [by left|done]. }
  destruct (DeliveryFacts.page_delivered domain date sender pw body doc n pg email ident w
              Hdate Hmatch Hdoc Hcopy Hdir Hok Hsent) as (k & _ & _ & Hpage).
  pose proof (DeliveryFacts.path_plain domain date pg email ident Hdate Hmatch) as Hns.
  set (path := artifact_path date ident) in *.
  set (target := "Sent/" +:+ sent_name path date ident ".pdf" k) in *.
  assert (Htarget : ∀ q, Str.mem "/" q = false → q ≠ target).
  { intros q Hq ->. unfold target in Hq. by rewrite mem_app in Hq. }
  assert (Hkept : ∀ q, q ≠ "Sent" → q ≠ path → q ≠ target →
            fs (set_fs (λ m, <[target := File (Pdf [pg])]> (delete path m))
                  (after_session sender pw
                     (pay_stub_message sender email body path (Pdf [pg]))
                     (ensure_dir "Sent" (after_split pg path w)))) !! q = fs w !! q).
  { intros q H1 H2 H3.
    change (<[target := File (Pdf [pg])]>
              (delete path (fs (ensure_dir "Sent" (after_split pg path w)))) !! q
            = fs w !! q).
    rewrite lookup_insert_ne, lookup_delete_ne by done.
    rewrite ensure_dir_other by done. simpl. by rewrite lookup_insert_ne. }
  assert (Hgone : fs (set_fs (λ m, <[target := File (Pdf [pg])]> (delete path m))
                  (after_session sender pw
                     (pay_stub_message sender email body path (Pdf [pg]))
                     (ensure_dir "Sent" (after_split pg path w)))) !! path = None).
  { change (<[target := File (Pdf [pg])]>
              (delete path (fs (ensure_dir "Sent" (after_split pg path w)))) !! path = None).
    rewrite lookup_insert_ne by (by apply not_eq_sym, Htarget).
    apply lookup_delete_eq. }
  eexists. split; [exact Hpage|]. split_and!.
  - done.
  - split_and!.
    + intros d. change (<[target := File (Pdf [pg])]>
              (delete path (fs (after_session sender pw
                     (pay_stub_message sender email body path (Pdf [pg]))
                     (ensure_dir "Sent" (after_split pg path w))))) !! "Sent"
                        ≠ Some (File d)).
      rewrite lookup_insert_ne by (by apply not_eq_sym, Htarget).
      rewrite lookup_delete_ne
        by (by apply (HandlerFacts.path_not_tracked date ident)).
      unfold path.
      by rewrite (DeliveryFacts.sent_is_directory date sender pw body pg email ident w).
    + intros pg' e' i' Hin Hm'.
      pose proof (DeliveryFacts.path_plain domain date pg' e' i' Hdate Hm') as Hns'.
      destruct (decide (artifact_path date i' = path)) as [->|Hne].
      * change (fs (add_line (SentTo email) ?w0)) with (fs w0). by rewrite Hgone.
      * change (fs (add_line (SentTo email) ?w0)) with (fs w0).
        rewrite Hkept; [apply (Hfree pg' e' i'); [by right|done]| |done|by apply Htarget].
        by apply (HandlerFacts.path_not_tracked date i').
    + simpl. destruct Hnet; [constructor|done].
  - intros x. change (fs (add_line (SentTo email) ?w0)) with (fs w0).
    destruct (decide ("Failed to Send/" +:+ x = target)) as [Heq|Hne]; [by inversion Heq|].
    apply Hkept; [done| |done].
    intros Heq. apply (f_equal (Str.mem "/")) in Heq. by rewrite Hns, mem_app in Heq.
  - intros q Hq. change (fs (add_line (SentTo email) ?w0)) with (fs w0).
    destruct (decide (q = "Sent")) as [->|H1]; [by right; right|].
    destruct (decide (q = path)) as [->|H2]; [by left|].
    right. left. apply Hkept; [done..|by apply Htarget].
  - intros e' i' [= <- <-]. change (fs (add_line (SentTo email) ?w0)) with (fs w0).
    exact Hgone.
Qed.

End Page.

Lemma for_pages_go_well domain date sender pw body doc n todo w :
  Str.mem "/" date = false →
  (∀ i pg, todo !! i = Some pg → doc !! (n + i)%nat = Some pg) →
  Forall (λ pg, copyable pg = true) todo →
  unobstructed domain date todo w →
  ∃ w', for_pages (configured domain) date sender pw body doc n todo w = (Ok tt, w')
    ∧ stdout w' = stdout w ++ imap (λ i, good_line (configured domain) (n + i)) todo
    ∧ (∀ x, fs w' !! ("Failed to Send/" +:+ x) = fs w !! ("Failed to Send/" +:+ x))
    ∧ (∀ q, Str.mem "/" q = false → fs w' !! q = None ∨ fs w' !! q = fs w !! q ∨ q = "Sent")
    ∧ (∀ pg email ident, pg ∈ todo →
         extract (configured domain) (page_text pg) = Some (email, ident) →
         fs w' !! artifact_path date ident = None).
Proof.
  intros Hdate. revert n w. induction todo as [|pg todo IH]; intros n w Hdoc Hcopy Hclear.
  - exists w. simpl. rewrite List.app_nil_r. split_and!; try done.
    + intros q _. right. by left.
    + intros pg e i Hin. by apply elem_of_nil in Hin.
  - apply Forall_cons in Hcopy as [Hpg Hcopy].
    destruct (page_goes_well domain date sender pw body doc n pg w Hdate) with (todo := todo)
      as (w1 & Hpage & Hout1 & Hclear1 & Hfailed1 & Hframe1 & Hgone1); [|done|done|].
    { specialize (Hdoc 0%nat pg eq_refl). by rewrite Nat.add_0_r in Hdoc. }
    destruct (IH (S n) w1) as (w' & Hrun & Hout & Hfailed & Hframe & Hgone); [|done|done|].
    { intros i pg' Hi. specialize (Hdoc (S i) pg' Hi). by rewrite Nat.add_succ_r in Hdoc. }
    exists w'. rewrite for_pages_step, Hpage. split; [done|]. split_and!.
    + rewrite Hout, Hout1, <- (assoc_L (++)). f_equal. simpl. rewrite Nat.add_0_r. f_equal.
      apply imap_ext. intros i x _. simpl. f_equal. lia.
    + intros x. by rewrite Hfailed, Hfailed1.
    + intros q Hq. destruct (Hframe q Hq) as [H|[H|H]]; [by left| |by right; right].
      rewrite H. apply (Hframe1 q Hq).
    + intros pg' e i [->|Hin]%elem_of_cons Hm; [|by apply (Hgone pg' e i)].
      pose proof (DeliveryFacts.path_plain domain date pg e i Hdate Hm) as Hns.
      destruct (Hframe _ Hns) as [H|[H|H]]; [done| |].
      * rewrite H. by apply (Hgone1 e i).
      * by destruct (HandlerFacts.path_not_tracked date i "Sent").
Qed.

End HappyFacts.


Section MoreWitnesses.
Import Scenario.


Lemma failed_send_email_moves_nothing_witness :
  let w := start [] [(alice_pdf, File (Pdf [alice]))] [NetLoginFails] in
  let r := send_email "me@gmail.com" "secret" "alice@acme.com" alice_pdf None w in
  r = (Raise SMTPAuthenticationError, r.2)
  ∧ fs r.2 = fs (ensure_dir "Sent" w) ∧ stdout r.2 = stdout w ∧ handles r.2 = handles w.
Proof.
  intros w r.
  assert (Hrun : r = (Raise SMTPAuthenticationError, r.2)) by (vm_compute; reflexivity).
  split; [exact Hrun|].
  exact (failed_send_email_moves_nothing "me@gmail.com" "secret" "alice@acme.com" alice_pdf
           None w r.2 SMTPAuthenticationError Hrun).
Defined.

Lemma send_email_accepted_then_value_error_witness :
  let w := start [] [("stub.pdf", File (Pdf [alice]))] [NetOk] in
  fs w !! "stub.pdf" = Some (File (Pdf [alice]))
  ∧ (∀ a b, (Path.splitext (Path.basename "stub.pdf")).1 ≠ a +:+ " - " +:+ b)
  ∧ Smtp.outcome w = NetOk
  ∧ ∃ w', send_email "me@gmail.com" "secret" "alice@acme.com" "stub.pdf" None w
          = (Raise ValueError, w') ∧
      wire w' = wire w ++
        [Connected "smtp.gmail.com" 465 ImplicitTLS; LoggedIn "me@gmail.com" "secret";
         Accepted (pay_stub_message "me@gmail.com" "alice@acme.com" (default "" None)
                     (Path.basename "stub.pdf") (Pdf [alice]));
         Quit] ∧
      fs w' !! "stub.pdf" = Some (File (Pdf [alice])) ∧
      fs w' = fs (ensure_dir "Sent" w).
Proof.
  intros w.
  assert (Hname : ∀ a b, (Path.splitext (Path.basename "stub.pdf")).1 ≠ a +:+ " - " +:+ b).
  { apply FilingFacts.partition_None. vm_compute. reflexivity. }
  split; [vm_compute; reflexivity|]. split; [exact Hname|]. split; [vm_compute; reflexivity|].
  apply (send_email_accepted_then_value_error "me@gmail.com" "secret" "alice@acme.com"
           "stub.pdf" None (Pdf [alice]) w); [vm_compute; reflexivity|exact Hname|].
  vm_compute. reflexivity.
Defined.


Lemma move_to_failed_ignores_absolute_path_witness :
  let w := start [] [("Failed to Send", Dir); ("/tmp", Dir);
                     ("/tmp/a.pdf", File (Pdf [alice]))] [] in
  Str.strip_prefix "/" "/tmp/a.pdf" = Some "tmp/a.pdf"
  ∧ fs w !! "/tmp/a.pdf" = Some (File (Pdf [alice]))
  ∧ fs w !! Path.parent "/tmp/a.pdf" = Some Dir
  ∧ move_to_failed_send_folder "/tmp/a.pdf" w = (Ok tt, w).
Proof.
  intros w. do 3 (split; [vm_compute; reflexivity|]).
  apply (move_to_failed_ignores_absolute_path "/tmp/a.pdf" "tmp/a.pdf" (File (Pdf [alice])) w);
    [vm_compute; reflexivity..|].
  right. vm_compute. reflexivity.
Defined.

Lemma artifact_name_always_parses_witness :
  let w := start [] [] [] in
  Str.all is_local "alice" = true
  ∧ Path.splitext (Path.basename (artifact_path "01/15/2024" "alice"))
    = (Path.basename "01/15/2024" +:+ " - " +:+ "alice", ".pdf")
  ∧ (move_to_sent_folder (artifact_path "01/15/2024" "alice") w).1 ≠ Raise ValueError.
Proof.
  intros w. split; [vm_compute; reflexivity|].
  apply (artifact_name_always_parses "01/15/2024" "alice" w). vm_compute. reflexivity.
Defined.



Lemma complete_run_prints_one_line_per_page_witness :
  let w := start [alice; blank] [] [NetSendFails] in
  run w = (Ok tt, (run w).2)
  ∧ ∃ pages ls, fs w !! "in.pdf" = Some (File (Pdf pages)) ∧
      stdout (run w).2 = stdout w ++ ls ∧ List.length ls = List.length pages ∧
      ∀ i pg l, pages !! i = Some pg → ls !! i = Some l →
        line_fits (configured "acme") i pg l.
Proof.
  intros w.
  assert (Hrun : run w = (Ok tt, (run w).2)) by (vm_compute; reflexivity).
  split; [exact Hrun|].
  exact (complete_run_prints_one_line_per_page (configured "acme") "01-15-2024"
           "me@gmail.com" "secret" "" "in.pdf" w (run w).2 Hrun).
Defined.

Lemma run_without_source_witness :
  let w := start [alice] [("archive", Dir)] [] in
  (∀ d, fs w !! "archive" ≠ Some (File d))
  ∧ fs w !! "archive" = Some Dir
  ∧ ∃ e, process_pay_stubs (configured "acme") "01-15-2024" "me@gmail.com" "secret" ""
           "archive" w
         = (Raise e, ensure_dir "Failed to Send" w)
       ∧ (fs w !! "archive" = None → "archive" ≠ "Failed to Send" → e = FileNotFoundError)
       ∧ (fs w !! "archive" = Some Dir ∨ "archive" = "Failed to Send" → e = FileDataError)
       ∧ is_Some (fs (ensure_dir "Failed to Send" w) !! "Failed to Send").
Proof.
  intros w.
  assert (Hno : ∀ d, fs w !! "archive" ≠ Some (File d))
    by (intros d; vm_compute; discriminate).
  split; [exact Hno|]. split; [vm_compute; reflexivity|].
  exact (run_without_source (configured "acme") "01-15-2024" "me@gmail.com" "secret" ""
           "archive" w Hno).
Defined.

Lemma run_opens_at_most_one_session_per_addressed_page_witness :
  let w := start [alice; blank; bob] [] [NetOk; NetConnectFails] in
  fs w !! "in.pdf" = Some (File (Pdf [alice; blank; bob]))
  ∧ ∃ chunks,
      wire (run w).2 = wire w ++ List.concat chunks
      ∧ (List.length chunks ≤ List.length [alice; blank; bob])%nat
      ∧ (∀ i pg evs, [alice; blank; bob] !! i = Some pg → chunks !! i = Some evs →
           page_traffic (configured "acme") "01-15-2024" "me@gmail.com" "secret" "" pg evs)
      ∧ (sessions_opened (List.concat chunks)
         ≤ List.length (List.filter (addressed (configured "acme")) [alice; blank; bob]))%nat.
Proof.
  intros w. split; [vm_compute; reflexivity|].
  apply (run_opens_at_most_one_session_per_addressed_page (configured "acme") "01-15-2024"
           "me@gmail.com" "secret" "" "in.pdf" [alice; blank; bob] w).
  vm_compute. reflexivity.
Defined.

Lemma main_without_credentials_witness :
  let c := Desk.desk (Desk.office [alice] []) ["in.pdf"] Console.Denied in
  Console.stdin c = ["in.pdf"]
  ∧ stored_secret PROJECT_ID SECRET_ID service_account_file c = None
  ∧ ∃ c', Desk.dialogue c = (Console.Done tt, c')
      ∧ Console.machine c' = Console.machine c
      ∧ Console.stdin c' = []
      ∧ (Console.screen c' = Console.screen c ++ [ask_pdf]
         ∨ Console.screen c' = Console.screen c ++ [ask_pdf; Console.SaidSecretError]).
Proof.
  intros c. do 2 (split; [vm_compute; reflexivity|]).
  apply (main_without_credentials (configured "acme") Desk.installed (λ p, p) "in.pdf" [] c);
    [vm_compute; reflexivity|].
  left. vm_compute. reflexivity.
Defined.

Lemma main_incomplete_secret_witness :
  let d : gmap string string := <["email" := "me@gmail.com"]> ∅ in
  let c := Desk.desk (Desk.office [alice] []) ["in.pdf"; "01/15/2024"]
             (Console.Payload (Console.PyDict d)) in
  Console.stdin c = ["in.pdf"; "01/15/2024"]
  ∧ stored_secret PROJECT_ID SECRET_ID service_account_file c = Some (Console.PyDict d)
  ∧ d !! "email_password" = None
  ∧ Desk.dialogue c =
      (Console.Fail (Console.KeyError "email_password"),
       Console.set_stdin ["01/15/2024"] (Console.show ask_pdf c)).
Proof.
  intros d c. do 3 (split; [vm_compute; reflexivity|]).
  apply (main_incomplete_secret (configured "acme") Desk.installed (λ p, p) "in.pdf"
           ["01/15/2024"] (Console.PyDict d) c);
    [vm_compute; reflexivity|vm_compute; reflexivity|discriminate|].
  intros d' [= <-]. right. vm_compute. reflexivity.
Defined.

Lemma main_runs_the_pipeline_witness :
  let c := Desk.desk (Desk.office [alice; blank] [])
             ["in.pdf"; "01/15/2024"; "See attached."; ""]
             (Console.Payload (Console.PyDict Desk.credentials)) in
  let run := process_pay_stubs (configured "acme") (formatted_date "01/15/2024")
               "me@gmail.com" "secret" "See attached."
               (resource_path Desk.installed "in.pdf") (Console.machine c) in
  Console.stdin c = ["in.pdf"; "01/15/2024"; "See attached."; ""]
  ∧ stored_secret PROJECT_ID SECRET_ID service_account_file c
    = Some (Console.PyDict Desk.credentials)
  ∧ Desk.credentials !! "email" = Some "me@gmail.com"
  ∧ Desk.credentials !! "email_password" = Some "secret"
  ∧ run.1 = Ok tt
  ∧ Console.machine (Desk.dialogue c).2 = run.2.
Proof.
  intros c run.
  assert (Hin : Console.stdin c = ["in.pdf"; "01/15/2024"; "See attached."; ""])
    by reflexivity.
  assert (Hsecret : stored_secret PROJECT_ID SECRET_ID service_account_file c
                    = Some (Console.PyDict Desk.credentials)) by (vm_compute; reflexivity).
  assert (He : Desk.credentials !! "email" = Some "me@gmail.com") by (vm_compute; reflexivity).
  assert (Hpw : Desk.credentials !! "email_password" = Some "secret")
    by (vm_compute; reflexivity).
  split; [exact Hin|]. split; [exact Hsecret|]. split; [exact He|]. split; [exact Hpw|].
  split; [vm_compute; reflexivity|].
  exact (proj1 (main_runs_the_pipeline (configured "acme") Desk.installed (λ p, p) "in.pdf"
           "01/15/2024" "See attached." [""] Desk.credentials "me@gmail.com" "secret" c
           Hin Hsecret He Hpw)).
Defined.

Lemma resource_path_is_absolute_witness :
  PosixPath.isabs (cwd Desk.installed) = true
  ∧ PosixPath.isabs (executable Desk.packaged) = true
  ∧ PosixPath.isabs (resource_path Desk.installed "in.pdf") = true
  ∧ PosixPath.isabs (resource_path Desk.packaged "in.pdf") = true.
Proof.
  do 2 (split; [vm_compute; reflexivity|]). split.
  - apply (resource_path_is_absolute Desk.installed "in.pdf"). vm_compute. reflexivity.
  - apply (resource_path_is_absolute Desk.packaged "in.pdf"). vm_compute. reflexivity.
Defined.

Lemma shipped_pattern_takes_one_letter_domains_witness :
  extract placeholder_domain "to bob@d.com" = Some ("bob@d.com", "bob")
  ∧ ∃ c, Str.mem c "domain" = true
      ∧ "bob@d.com" = "bob" +:+ "@" +:+ String c ".com"
      ∧ "bob" ≠ "" ∧ Str.all is_local "bob" = true
      ∧ ∃ before after, "to bob@d.com" = before +:+ "bob@d.com" +:+ after.
Proof.
  split; [vm_compute; reflexivity|].
  apply (shipped_pattern_takes_one_letter_domains "to bob@d.com" "bob@d.com" "bob").
  vm_compute. reflexivity.
Defined.


End MoreWitnesses.
